(** * jira-util: the command handlers of the Jira command-line client

    A shallow embedding of the handlers of [index.js] (search, issue, comments,
    close, notes, setVersion) and the properties of their call sequencing,
    classification and error handling.

    - module [JS]: the JSON values the tracker returns, with the JavaScript
      operators the handlers apply to them;
    - class [Host]: the libraries the handlers call (chalk, moment) and the
      string-to-number coercion of the runtime;
    - module [Effects]: asynchronous functions as trees of tracker requests
      and console lines, with their sequential interpreter;
    - section [Handlers]: the functions of the source, one definition each;
    - section [Join]: [Promise.all] over chains that run concurrently, and
      the close command built on it;
    - the vocabulary of the properties and the data of the examples;
    - the properties, handler by handler. *)

From Stdlib Require Import String Ascii List ZArith Bool Lia DecimalString.
Import ListNotations.

Set Warnings "-register-all".
Local Open Scope string_scope.
Local Open Scope list_scope.

(** String concatenation, kept apart from list append. *)
Infix "+++" := String.append (at level 60, right associativity).

(* ===================================================================== *)
(** ** JavaScript values *)
(* ===================================================================== *)

Module JS.

(** What a handler can hold: a JSON value received from the tracker, a string
    of the command line, or a value the handler builds from those.  Numbers are
    integers (identifiers, counts, lengths).  A string is its text in UTF-8;
    [String.length] agrees with JavaScript's [length] on ASCII text.
    [VNative] is a built-in function object met through the prototype chain:
    the one property the handlers read that an array inherits is [values]. *)
Inductive value : Type :=
| VUndefined
| VNull
| VBool (b : bool)
| VNum (n : Z)
| VStr (s : string)
| VArr (items : list value)
| VObj (props : list (string * value))
| VNative (name : string).

(** [!!v] *)
Definition truthy (v : value) : bool :=
  match v with
  | VUndefined | VNull => false
  | VBool b => b
  | VNum n => negb (n =? 0)%Z
  | VStr s => negb (s =? "")
  | VArr _ | VObj _ | VNative _ => true
  end.

Definition falsy (v : value) : bool := negb (truthy v).

(** [v === undefined || v === null]: a property read on such a value throws. *)
Definition nullish (v : value) : bool :=
  match v with
  | VUndefined | VNull => true
  | _ => false
  end.

Fixpoint own (k : string) (props : list (string * value)) : value :=
  match props with
  | [] => VUndefined
  | (k', v) :: rest => if k' =? k then v else own k rest
  end.

(** [v.k] for a [v] that is neither [undefined] nor [null] (see [get] in
    [Effects] for the read that checks it).  None of the names the handlers
    read is a member of [Object.prototype]; on arrays and strings [length] is
    the data property and [values] the inherited array method. *)
Definition prop (v : value) (k : string) : value :=
  match v with
  | VObj props => own k props
  | VArr items =>
      if k =? "length" then VNum (Z.of_nat (List.length items))
      else if k =? "values" then VNative "values"
      else VUndefined
  | VStr s => if k =? "length" then VNum (Z.of_nat (String.length s)) else VUndefined
  | _ => VUndefined
  end.

(** [v.k1.k2...] where every step but the last is known to be an object. *)
Definition path (v : value) (ks : list string) : value := fold_left prop ks v.

(** Decimal rendering of an integer, as [Number.prototype.toString] prints the
    integers below 10^21. *)
Definition NumberToString (n : Z) : string := NilZero.string_of_int (Z.to_int n).

(** [v[i]] for a [v] that is neither [undefined] nor [null]. *)
Definition index (v : value) (i : nat) : value :=
  match v with
  | VArr items => nth i items VUndefined
  | VObj props => own (NumberToString (Z.of_nat i)) props
  | VStr s => match String.get i s with
              | Some c => VStr (String c EmptyString)
              | None => VUndefined
              end
  | _ => VUndefined
  end.

(** [String(v)], which is also what [+] with a string operand and a template
    literal do with [v].  [Array.prototype.join] prints [undefined] and [null]
    elements as the empty string. *)
Fixpoint ToString (v : value) : string :=
  match v with
  | VUndefined => "undefined"
  | VNull => "null"
  | VBool true => "true"
  | VBool false => "false"
  | VNum n => NumberToString n
  | VStr s => s
  | VArr items =>
      (fix join (l : list value) : string :=
         match l with
         | [] => ""
         | x :: rest =>
             (if nullish x then "" else ToString x)
             +++ match rest with [] => "" | _ => "," +++ join rest end
         end) items
  | VObj _ => "[object Object]"
  | VNative name => "function " +++ name +++ "() { [native code] }"
  end.

(** [items.join(sep)] *)
Fixpoint join (sep : string) (items : list value) : string :=
  match items with
  | [] => ""
  | x :: rest =>
      (if nullish x then "" else ToString x)
      +++ match rest with [] => "" | _ => sep +++ join sep rest end
  end.

(** [a === b] against a string or a number literal. *)
Definition strict_eq_string (v : value) (s : string) : bool :=
  match v with
  | VStr t => t =? s
  | _ => false
  end.

Definition strict_eq_number (v : value) (n : Z) : bool :=
  match v with
  | VNum m => (m =? n)%Z
  | _ => false
  end.

(** [a && b] and [a || b] on values.  JavaScript evaluates [b] only when [a]
    does not decide; the right operands written with these two are property
    reads on a value the left operand has just shown truthy, so they are total
    and evaluating them eagerly changes nothing. *)
Definition js_and (a b : value) : value := if truthy a then b else a.
Definition js_or (a b : value) : value := if truthy a then a else b.

(** The error the runtime throws on a read through [undefined] or [null] and
    on a call of something that is not a function.  It carries no [error]
    property. *)
Definition TypeError : value := VObj [("name", VStr "TypeError")].

End JS.
Export JS.

Notation "a &&& b" := (js_and a b) (at level 40, left associativity).
Notation "a ||| b" := (js_or a b) (at level 50, left associativity).

(* ===================================================================== *)
(** ** The host: libraries the handlers call but do not define *)
(* ===================================================================== *)

(** The chalk styles the source chains: [chalk.bold.underline.green] is
    [chalk [bold; underline; green]]. *)
Inductive style : Type := bold | underline | red | green | yellow.

(** - [chalk styles text]: the text wrapped in the escape codes of the styles
      (the text itself when colours are off);
    - [moment_format d f]: [moment(d).format(f)];
    - [StringToNumber s]: the number a string converts to when an operator
      coerces it, [None] for [NaN]. *)
Class Host : Type := {
  chalk : list style -> string -> string;
  moment_format : value -> string -> string;
  StringToNumber : string -> option Z
}.

Section Coercions.
Context {host : Host}.

(** [Number(v)]; [None] is [NaN].  An object converts through its string. *)
Definition ToNumber (v : value) : option Z :=
  match v with
  | VUndefined => None
  | VNull => Some 0%Z
  | VBool b => Some (if b then 1 else 0)%Z
  | VNum n => Some n
  | VStr s => StringToNumber s
  | VArr _ | VObj _ | VNative _ => StringToNumber (ToString v)
  end.

(** [v == s] for a string [s]: strings compare as strings, numbers and
    booleans against the number [s] converts to, objects through their string,
    and [undefined] and [null] equal no string. *)
Definition loose_eq_string (v : value) (s : string) : bool :=
  match v with
  | VStr t => t =? s
  | VNum _ | VBool _ =>
      match ToNumber v, StringToNumber s with
      | Some a, Some b => (a =? b)%Z
      | _, _ => false
      end
  | VUndefined | VNull => false
  | VArr _ | VObj _ | VNative _ => ToString v =? s
  end.

(** [v > 0] *)
Definition gt_zero (v : value) : bool :=
  match ToNumber v with
  | Some n => (0 <? n)%Z
  | None => false
  end.

(** How many times [for (let i = 0; i < len; i++)] runs its body when the body
    leaves [len] alone. *)
Definition iterations (len : value) : nat :=
  match ToNumber len with
  | Some n => Z.to_nat n
  | None => 0
  end.

End Coercions.

(* ===================================================================== *)
(** ** Asynchronous functions *)
(* ===================================================================== *)

Module Effects.

(** The methods of the jira-client object the handlers call, with their
    arguments. *)
Inductive call : Type :=
| searchJira (query : value)
| findIssue (issueNumber : value)
| listTransitions (issueId : value)
| transitionIssue (issueId body : value)
| getAllSprints (boardId startAt maxResults state : value)
| getBoardIssuesForSprint (boardId sprintId : value)
| getVersions (project : value)
| updateIssue (issueId body : value).

(** How a promise settles. *)
Inductive outcome (A : Type) : Type :=
| Fulfilled (a : A)
| Rejected (e : value).
Arguments Fulfilled {A} a.
Arguments Rejected {A} e.

(** The body of an [async function]: it returns, throws, writes a line with
    [console.log], or sends a request and continues with how it settled. *)
Inductive prog (A : Type) : Type :=
| Ret (a : A)
| Throw (e : value)
| Await (c : call) (k : outcome value -> prog A)
| Print (line : value) (k : prog A).
Arguments Ret {A} a.
Arguments Throw {A} e.
Arguments Await {A} c k.
Arguments Print {A} line k.

Fixpoint bind {A B : Type} (p : prog A) (f : A -> prog B) : prog B :=
  match p with
  | Ret a => f a
  | Throw e => Throw e
  | Await c k => Await c (fun r => bind (k r) f)
  | Print line k => Print line (bind k f)
  end.

(** [try { p } catch (e) { h e }] *)
Fixpoint try_catch {A : Type} (p : prog A) (h : value -> prog A) : prog A :=
  match p with
  | Ret a => Ret a
  | Throw e => h e
  | Await c k => Await c (fun r => try_catch (k r) h)
  | Print line k => Print line (try_catch k h)
  end.

(** [await jira.method(args)]: a rejection is thrown at the [await]. *)
Definition await (c : call) : prog value :=
  Await c (fun r => match r with Fulfilled v => Ret v | Rejected e => Throw e end).

(** [console.log(v)] *)
Definition console_log (v : value) : prog unit := Print v (Ret tt).

(** [v.k], which throws when [v] is [undefined] or [null]. *)
Definition get (v : value) (k : string) : prog value :=
  if nullish v then Throw TypeError else Ret (prop v k).

(** [v[i]], likewise. *)
Definition get_index (v : value) (i : nat) : prog value :=
  if nullish v then Throw TypeError else Ret (index v i).

Fixpoint each {A : Type} (f : A -> prog unit) (l : list A) : prog unit :=
  match l with
  | [] => Ret tt
  | x :: rest => bind (f x) (fun _ => each f rest)
  end.

Fixpoint traverse (f : value -> prog value) (l : list value) : prog (list value) :=
  match l with
  | [] => Ret []
  | x :: rest => bind (f x) (fun y => bind (traverse f rest) (fun ys => Ret (y :: ys)))
  end.

(** [v.forEach(f)], [v.map(f)] and [v.find(f)]: only an array has these
    methods; a JSON value of any other kind has no callable member. *)
Definition forEach (v : value) (f : value -> prog unit) : prog unit :=
  match v with
  | VArr items => each f items
  | _ => Throw TypeError
  end.

Definition map_array (v : value) (f : value -> prog value) : prog value :=
  match v with
  | VArr items => bind (traverse f items) (fun ys => Ret (VArr ys))
  | _ => Throw TypeError
  end.

Fixpoint find_first (f : value -> prog bool) (l : list value) : prog value :=
  match l with
  | [] => Ret VUndefined
  | x :: rest => bind (f x) (fun b => if b then Ret x else find_first f rest)
  end.

Definition find_array (v : value) (f : value -> prog bool) : prog value :=
  match v with
  | VArr items => find_first f items
  | _ => Throw TypeError
  end.

(** What has happened so far: the requests sent to the tracker and the lines
    written to the console, oldest first. *)
Record world : Type := World { calls : list call; console : list value }.

Definition sent (c : call) (w : world) : world :=
  {| calls := calls w ++ [c]; console := console w |}.

Definition logged (line : value) (w : world) : world :=
  {| calls := calls w; console := console w ++ [line] |}.

(** The tracker: how it settles a request, given the requests sent so far,
    that one included. *)
Definition tracker : Type := list call -> call -> outcome value.

(** One asynchronous function run to completion, each request answered before
    the next statement runs. *)
Fixpoint run (jira : tracker) {A : Type} (p : prog A) (w : world) : outcome A * world :=
  match p with
  | Ret a => (Fulfilled a, w)
  | Throw e => (Rejected e, w)
  | Await c k => run jira (k (jira (calls w ++ [c]) c)) (sent c w)
  | Print line k => run jira k (logged line w)
  end.

End Effects.
Export Effects.

Declare Scope prog_scope.
Delimit Scope prog_scope with prog.
Bind Scope prog_scope with prog.
Notation "x <- p ;; q" := (bind p (fun x => q))
  (at level 100, p at next level, right associativity) : prog_scope.
Notation "p ;; q" := (bind p (fun _ => q))
  (at level 100, right associativity) : prog_scope.

Local Open Scope prog_scope.

(* ===================================================================== *)
(** ** The handlers of the source *)
(* ===================================================================== *)

(** The command-line arguments ([version], [query], [issue number]) are the
    strings commander passes.  Each definition follows the function of the same
    name in [index.js]; [setVersion] and its helpers are those of the later
    revision of the same file that adds the [setVersion] command. *)

Definition nl : string := String "010" EmptyString.
Definition tab : string := String "009" EmptyString.
Definition dquote : string := String "034" EmptyString.

Section Handlers.
Context {host : Host}.

Definition handleError (e : value) : prog unit :=
  let msg := nl +++ "Sorry, something went wrong while retrieving Jira issues:" +++ nl +++ nl in
  let msg :=
    if truthy (e &&& prop e "error" &&& path e ["error"; "errorMessages"]
                 &&& path e ["error"; "errorMessages"; "length"])
    then msg +++ tab +++ ToString (index (path e ["error"; "errorMessages"]) 0) +++ nl
    else msg in
  console_log (VStr (chalk [red] msg)).

Definition search (query : string) : prog value :=
  if falsy (VStr query) then Ret (VArr []) else
  try_catch
    (results <- await (searchJira (VStr query));;
     let issues :=
       if truthy (results &&& prop results "issues") then prop results "issues" else VArr [] in
     forEach issues (fun i =>
       key <- get i "key";;
       fields <- get i "fields";;
       summary <- get fields "summary";;
       console_log (VStr (ToString key +++ " - " +++ ToString summary)));;
     Ret issues)
    (fun e => handleError e;; Ret VUndefined).

(** [issue.fields] is read first in the title line, which throws when it is
    missing; the later reads go through the value read there. *)
Definition printIssue (issueNumber : string) : prog value :=
  fetched <- try_catch (issue <- await (findIssue (VStr issueNumber));; Ret (Some issue))
                       (fun e => handleError e;; Ret None);;
  match fetched with
  | None => Ret VUndefined
  | Some issue =>
  key <- get issue "key";;
  fields <- get issue "fields";;
  summary <- get fields "summary";;
  console_log (VStr (nl +++ chalk [underline; green]
                              (ToString key +++ " - " +++ ToString summary +++ nl)));;
  let type := if truthy (prop fields "issuetype") then path fields ["issuetype"; "name"] else VStr "" in
  console_log (VStr (chalk [bold] "Type: " +++ ToString type));;
  let assignee :=
    if truthy (prop fields "assignee")
    then ToString (path fields ["assignee"; "displayName"]) +++ " - "
         +++ ToString (path fields ["assignee"; "emailAddress"])
    else "" in
  console_log (VStr (chalk [bold] "Assignee: " +++ assignee));;
  let status := if truthy (prop fields "status") then path fields ["status"; "name"] else VStr "" in
  console_log (VStr (chalk [bold] "Status: " +++ ToString status));;
  console_log (VStr (chalk [bold] "Created: "
                     +++ moment_format (prop fields "created") "MMMM Do YYYY, h:mm A"));;
  let fixVersions := prop fields "fixVersions" in
  fixVersionsStr <-
    (if truthy (fixVersions &&& prop fixVersions "length")
     then names <- map_array fixVersions (fun f => get f "name");;
          Ret (match names with VArr l => join ", " l | _ => "" end)
     else Ret "");;
  console_log (VStr (chalk [bold] "Fix Version: " +++ fixVersionsStr));;
  console_log (VStr (chalk [bold] "Project Number: "
                     +++ ToString (prop fields "customfield_10022" ||| VStr "")));;
  console_log (VStr (chalk [bold] "Labels: " +++ ToString (prop fields "labels")));;
  console_log (VStr (chalk [bold] (nl +++ "Description:" +++ nl)
                     +++ chalk [yellow] (ToString (prop fields "description"))));;
  let numComments :=
    prop fields "comment" &&& path fields ["comment"; "comments"]
      &&& path fields ["comment"; "comments"; "length"] in
  console_log (VStr (nl +++ ToString (numComments ||| VNum 0)
                     +++ (if strict_eq_number numComments 1 then " Comment" else " Comments")
                     +++ nl));;
  Ret VUndefined
  end.

Definition getComments (issueNumber : string) : prog value :=
  fetched <- try_catch (issue <- await (findIssue (VStr issueNumber));; Ret (Some issue))
                       (fun e => handleError e;; Ret None);;
  match fetched with
  | None => Ret VUndefined
  | Some issue =>
      key <- get issue "key";;
      fields <- get issue "fields";;
      summary <- get fields "summary";;
      console_log (VStr (chalk [underline; green]
                           (ToString key +++ " - " +++ ToString summary +++ nl +++ nl)));;
      comment <- get fields "comment";;
      get comment "comments"
  end.

Definition printComments (issueNumber : string) : prog value :=
  comments <- getComments issueNumber;;
  (if truthy comments then
     forEach comments (fun c =>
       created <- get c "created";;
       let formattedDate := moment_format created "MMMM Do YYYY, h:mm A" in
       author <- get c "author";;
       displayName <- get author "displayName";;
       emailAddress <- get author "emailAddress";;
       let formattedAuthor := ToString displayName +++ " (" +++ ToString emailAddress +++ ")" in
       console_log (VStr (chalk [underline; yellow] (formattedAuthor +++ " - " +++ formattedDate)));;
       body <- get c "body";;
       console_log body;;
       console_log (VStr nl))
   else Ret tt);;
  Ret VUndefined.

Definition getIssuesByFixVersion (version : string) : prog value :=
  if falsy (VStr version) then Ret (VArr []) else search ("fixVersion=" +++ version).

Definition getTransitions (issueId : value) : prog value :=
  if falsy issueId then Ret VNull else await (listTransitions issueId).

Definition closeIssue (issue : value) : prog value :=
  if falsy issue || falsy (prop issue "key") || falsy (prop issue "fields")
     || falsy (path issue ["fields"; "status"])
  then Ret VUndefined else
  let key := prop issue "key" in
  let status := path issue ["fields"; "status"; "name"] in
  if strict_eq_string status "Closed" then
    Ret (VStr (ToString key +++ " - " +++ chalk [yellow] "Issue already Closed"))
  else if negb (strict_eq_string status "Resolved") then
    Ret (VStr (ToString key +++ " - " +++ chalk [red] "Issue not Resolved yet, can't be closed"))
  else
  transitions <- getTransitions key;;
  closeTransition <-
    (if truthy transitions
     then find_array (prop transitions "transitions")
            (fun t => name <- get t "name";; Ret (strict_eq_string name "Close Issue"))
     else Ret transitions);;
  if truthy (closeTransition &&& prop closeTransition "id") then
    await (transitionIssue key (VObj [("transition", prop closeTransition "id")]));;
    Ret (VStr (ToString key +++ " - " +++ chalk [green] "Closed"))
  else
    Ret (VStr (ToString key +++ " - "
               +++ chalk [red] "Close Transition not available, reason unknown...")).

Definition getSprintIssues (sprintName : string) : prog value :=
  results <- await (searchJira (VStr ("sprint=" +++ sprintName)));;
  Ret (if truthy (results &&& prop results "issues") then prop results "issues" else VArr []).

(** The four arrays [generateReleaseNotes] pushes to. *)
Record categories : Type := Categories {
  newFeatures : list value;
  improved : list value;
  fixes : list value;
  other : list value
}.

(** The callback of [issues.forEach] in [generateReleaseNotes]. *)
Definition categorize (i : value) (c : categories) : prog categories :=
  key <- get i "key";;
  fields <- get i "fields";;
  issuetype <- get fields "issuetype";;
  type <- get issuetype "name";;
  let data := VObj [("id", key); ("type", type);
                    ("description", prop fields "customfield_10101")] in
  if strict_eq_string (prop data "type") "New Feature" then
    Ret (Categories (newFeatures c ++ [data]) (improved c) (fixes c) (other c))
  else if strict_eq_string (prop data "type") "Improvement" then
    Ret (Categories (newFeatures c) (improved c ++ [data]) (fixes c) (other c))
  else if strict_eq_string (prop data "type") "Bug" then
    Ret (Categories (newFeatures c) (improved c) (fixes c ++ [data]) (other c))
  else
    Ret (Categories (newFeatures c) (improved c) (fixes c) (other c ++ [data])).

Fixpoint categorize_all (issues : list value) (c : categories) : prog categories :=
  match issues with
  | [] => Ret c
  | i :: rest => c' <- categorize i c;; categorize_all rest c'
  end.

Definition generateReleaseNotes (version : string) : prog value :=
  fetched <- try_catch (issues <- getIssuesByFixVersion version;; Ret (Some issues))
                       (fun e => console_log (VStr (chalk [red] (ToString e)));; Ret None);;
  match fetched with
  | None => Ret VNull
  | Some issues =>
      if falsy issues || falsy (prop issues "length") then Ret VNull else
      c <- match issues with
           | VArr items => categorize_all items (Categories [] [] [] [])
           | _ => Throw TypeError
           end;;
      Ret (VObj [("version", VStr version);
                 ("newFeatures", VArr (newFeatures c));
                 ("improved", VArr (improved c));
                 ("fixes", VArr (fixes c));
                 ("other", VArr (other c))])
  end.

Definition getActiveSprints (boardId : value) : prog value :=
  await (getAllSprints boardId (VNum 0) (VNum 50) (VStr "active")).

Definition isIssueClosed (issue : value) : value :=
  issue &&& prop issue "fields" &&& path issue ["fields"; "status"]
    &&& VBool (loose_eq_string (path issue ["fields"; "status"; "name"]) "Closed").

Definition doesIssueHaveFixVersion (issue : value) : value :=
  issue &&& prop issue "fields" &&& path issue ["fields"; "fixVersions"]
    &&& VBool (gt_zero (path issue ["fields"; "fixVersions"; "length"])).

(** The version loop of [setVersion]: [n] rounds from index [i], leaving at
    the first entry [v] with [v && v.name == version]; [null] when none. *)
Fixpoint findVersion (versions : value) (version : string) (i n : nat) : value :=
  match n with
  | O => VNull
  | S n' =>
      let v := index versions i in
      if truthy (v &&& VBool (loose_eq_string (prop v "name") version)) then v
      else findVersion versions version (S i) n'
  end.

(** The issue loop of [setVersion]: [n] rounds from index [i]; the result is
    [updatedCount]. *)
Fixpoint updateIssues (issues fixVersions : value) (i n : nat) (updatedCount : Z) : prog Z :=
  match n with
  | O => Ret updatedCount
  | S n' =>
      let issue := index issues i in
      if falsy (isIssueClosed issue) && falsy (doesIssueHaveFixVersion issue) then
        id <- get issue "id";;
        await (updateIssue id (VObj [("fields", VObj [("fixVersions", fixVersions)])]));;
        key <- get issue "key";;
        console_log (VStr (chalk [green] (tab +++ ToString key)));;
        updateIssues issues fixVersions (S i) n' (updatedCount + 1)
      else
        key <- get issue "key";;
        console_log (VStr (chalk [yellow]
                             (tab +++ ToString key +++ " already has a version or is closed")));;
        updateIssues issues fixVersions (S i) n' updatedCount
  end.

Definition setVersion (version : string) (sprintId : value) : prog value :=
  let CV_BOARD_ID := VStr "14" in
  let CV_PROJECT_ID := VStr "10025" in
  console_log (VStr (chalk [bold; underline]
                       (nl +++ "Setting fix version to: " +++ version +++ nl)));;
  sprints <- await (getAllSprints CV_BOARD_ID (VNum 0) (VNum 50) (VStr "active"));;
  values <- get sprints "values";;
  activeSprint <- get_index values 0;;
  if falsy activeSprint || falsy (prop activeSprint "id") then
    console_log (VStr (chalk [bold; red] "Active sprint not found"));;
    Ret VNull
  else
  issues <- await (getBoardIssuesForSprint CV_BOARD_ID (prop activeSprint "id"));;
  versions <- await (getVersions CV_PROJECT_ID);;
  let versions := versions ||| VArr [] in
  let versionObj := findVersion versions version 0 (iterations (prop versions "length")) in
  if falsy versionObj then
    console_log (VStr (chalk [bold; red] ("Version " +++ dquote +++ version +++ dquote +++ " not found")));;
    Ret VNull
  else
  let fixVersions := VArr [versionObj] in
  fetched <- get issues "issues";;
  let issues := fetched ||| VArr [] in
  let issueCount := prop issues "length" in
  updatedCount <- updateIssues issues fixVersions 0 (iterations (prop issues "length")) 0;;
  console_log (VStr (chalk [bold; underline; green]
                       (nl +++ "Updated " +++ NumberToString updatedCount +++ " issues out of "
                        +++ ToString issueCount +++ " total issues." +++ nl)));;
  Ret VUndefined.

End Handlers.

(* ===================================================================== *)
(** ** [Promise.all] and the close command *)
(* ===================================================================== *)

(** [issues.map(closeIssue)] starts every chain: each runs up to its first
    [await], where its request is sent and the chain parks.  The tracker then
    answers the parked requests in an order of its own, the schedule: entry
    [i] answers the request chain [i] is parked on, and that chain runs on to
    its next [await] or to its end.  When the schedule is used up, the chains
    still parked are answered in index order, so every chain settles.
    [Promise.all] is rejected by the first chain that rejects (with that
    chain's error) and fulfilled with all the values, in index order, when
    none does.  The world returned is the one in which every chain has
    settled: on a runtime that keeps running after a rejection nobody
    handles, the other chains still send their requests. *)

Inductive chain : Type :=
| Settled (r : outcome value)
| Parked (c : call) (k : outcome value -> prog value).

Record pool : Type := Pool { chains : list chain; first_rejection : option value }.

Section Join.
Context {host : Host}.
Variable jira : tracker.

Fixpoint advance (p : prog value) (w : world) : chain * world :=
  match p with
  | Ret v => (Settled (Fulfilled v), w)
  | Throw e => (Settled (Rejected e), w)
  | Await c k => (Parked c k, sent c w)
  | Print line k => advance k (logged line w)
  end.

Definition note (c : chain) (first : option value) : option value :=
  match first, c with
  | None, Settled (Rejected e) => Some e
  | _, _ => first
  end.

Fixpoint start (ps : list (prog value)) (first : option value) (w : world) : pool * world :=
  match ps with
  | [] => (Pool [] first, w)
  | p :: rest =>
      let (c, w1) := advance p w in
      let (pl, w2) := start rest (note c first) w1 in
      (Pool (c :: chains pl) (first_rejection pl), w2)
  end.

Fixpoint replace (i : nat) (c : chain) (cs : list chain) : list chain :=
  match cs, i with
  | [], _ => []
  | _ :: rest, O => c :: rest
  | x :: rest, S i' => x :: replace i' c rest
  end.

Definition answer (i : nat) (pl : pool) (w : world) : pool * world :=
  match nth_error (chains pl) i with
  | Some (Parked c k) =>
      let (c', w') := advance (k (jira (calls w) c)) w in
      (Pool (replace i c' (chains pl)) (note c' (first_rejection pl)), w')
  | _ => (pl, w)
  end.

Fixpoint answers (schedule : list nat) (pl : pool) (w : world) : pool * world :=
  match schedule with
  | [] => (pl, w)
  | i :: rest => let (pl', w') := answer i pl w in answers rest pl' w'
  end.

Fixpoint drain (cs : list chain) (first : option value) (w : world) : pool * world :=
  match cs with
  | [] => (Pool [] first, w)
  | Settled r :: rest =>
      let (pl, w') := drain rest first w in
      (Pool (Settled r :: chains pl) (first_rejection pl), w')
  | Parked c k :: rest =>
      let (r, w1) := run jira (k (jira (calls w) c)) w in
      let (pl, w2) := drain rest (note (Settled r) first) w1 in
      (Pool (Settled r :: chains pl) (first_rejection pl), w2)
  end.

Definition settled_value (c : chain) : value :=
  match c with
  | Settled (Fulfilled v) => v
  | _ => VUndefined
  end.

(** [await Promise.all(ps)] *)
Definition Promise_all (schedule : list nat) (ps : list (prog value)) (w : world)
  : outcome value * world :=
  let (pl0, w0) := start ps None w in
  let (pl1, w1) := answers schedule pl0 w0 in
  let (pl2, w2) := drain (chains pl1) (first_rejection pl1) w1 in
  match first_rejection pl2 with
  | Some e => (Rejected e, w2)
  | None => (Fulfilled (VArr (map settled_value (chains pl2))), w2)
  end.

Definition closeIssues (version : string) (schedule : list nat) (w : world)
  : outcome value * world :=
  match run jira (getIssuesByFixVersion version) w with
  | (Rejected e, w1) => (Rejected e, w1)
  | (Fulfilled issues, w1) =>
      match issues with
      | VArr items =>
          match Promise_all schedule (map closeIssue items) w1 with
          | (Rejected e, w2) => (Rejected e, w2)
          | (Fulfilled responses, w2) =>
              run jira (forEach responses console_log;; Ret VUndefined) w2
          end
      | _ => (Rejected TypeError, w1)
      end
  end.

End Join.

(* ===================================================================== *)
(** ** Two other states of the file *)
(* ===================================================================== *)

(** The file with the close, notes and search commands only.  Its functions
    are those above except [handleError], which appends the first message
    without a tab, and [search], which has no [return] after its loop; the
    functions that call [search] are repeated with that [search]. *)
Module Rev0.
Section Rev0Handlers.
Context {host : Host}.

Definition handleError (e : value) : prog unit :=
  let msg := nl +++ "Sorry, something went wrong while retrieving Jira issues:" +++ nl +++ nl in
  let msg :=
    if truthy (e &&& prop e "error" &&& path e ["error"; "errorMessages"]
                 &&& path e ["error"; "errorMessages"; "length"])
    then msg +++ ToString (index (path e ["error"; "errorMessages"]) 0) +++ nl
    else msg in
  console_log (VStr (chalk [red] msg)).

Definition search (query : string) : prog value :=
  if falsy (VStr query) then Ret (VArr []) else
  try_catch
    (results <- await (searchJira (VStr query));;
     let issues :=
       if truthy (results &&& prop results "issues") then prop results "issues" else VArr [] in
     forEach issues (fun i =>
       key <- get i "key";;
       fields <- get i "fields";;
       summary <- get fields "summary";;
       console_log (VStr (ToString key +++ " - " +++ ToString summary)));;
     Ret VUndefined)
    (fun e => handleError e;; Ret VUndefined).

Definition getIssuesByFixVersion (version : string) : prog value :=
  if falsy (VStr version) then Ret (VArr []) else search ("fixVersion=" +++ version).

Definition closeIssues (jira : tracker) (version : string) (schedule : list nat) (w : world)
  : outcome value * world :=
  match run jira (getIssuesByFixVersion version) w with
  | (Rejected e, w1) => (Rejected e, w1)
  | (Fulfilled issues, w1) =>
      match issues with
      | VArr items =>
          match Promise_all jira schedule (map closeIssue items) w1 with
          | (Rejected e, w2) => (Rejected e, w2)
          | (Fulfilled responses, w2) =>
              run jira (forEach responses console_log;; Ret VUndefined) w2
          end
      | _ => (Rejected TypeError, w1)
      end
  end.

Definition generateReleaseNotes (version : string) : prog value :=
  fetched <- try_catch (issues <- getIssuesByFixVersion version;; Ret (Some issues))
                       (fun e => console_log (VStr (chalk [red] (ToString e)));; Ret None);;
  match fetched with
  | None => Ret VNull
  | Some issues =>
      if falsy issues || falsy (prop issues "length") then Ret VNull else
      c <- match issues with
           | VArr items => categorize_all items (Categories [] [] [] [])
           | _ => Throw TypeError
           end;;
      Ret (VObj [("version", VStr version);
                 ("newFeatures", VArr (newFeatures c));
                 ("improved", VArr (improved c));
                 ("fixes", VArr (fixes c));
                 ("other", VArr (other c))])
  end.

End Rev0Handlers.
End Rev0.

(** The file with the close command only.  [getIssuesByFixVersion] sends the
    query itself, without [search] and without a [try]; [generateReleaseNotes]
    has no [try] either; [closeIssue] and [closeIssues] read as above. *)
Module Rev1.
Section Rev1Handlers.
Context {host : Host}.

Definition getIssuesByFixVersion (version : string) : prog value :=
  if falsy (VStr version) then Ret (VArr []) else
  results <- await (searchJira (VStr ("fixVersion=" +++ version)));;
  Ret (if truthy (results &&& prop results "issues") then prop results "issues" else VArr []).

Definition closeIssues (jira : tracker) (version : string) (schedule : list nat) (w : world)
  : outcome value * world :=
  match run jira (getIssuesByFixVersion version) w with
  | (Rejected e, w1) => (Rejected e, w1)
  | (Fulfilled issues, w1) =>
      match issues with
      | VArr items =>
          match Promise_all jira schedule (map closeIssue items) w1 with
          | (Rejected e, w2) => (Rejected e, w2)
          | (Fulfilled responses, w2) =>
              run jira (forEach responses console_log;; Ret VUndefined) w2
          end
      | _ => (Rejected TypeError, w1)
      end
  end.

Definition generateReleaseNotes (version : string) : prog value :=
  issues <- getIssuesByFixVersion version;;
  if falsy issues || falsy (prop issues "length") then Ret VNull else
  c <- match issues with
       | VArr items => categorize_all items (Categories [] [] [] [])
       | _ => Throw TypeError
       end;;
  Ret (VObj [("version", VStr version);
             ("newFeatures", VArr (newFeatures c));
             ("improved", VArr (improved c));
             ("fixes", VArr (fixes c));
             ("other", VArr (other c))]).

End Rev1Handlers.
End Rev1.

(* ===================================================================== *)
(** ** Vocabulary of the properties *)
(* ===================================================================== *)

(** An issue record that passes the guard of [closeIssue]: the record, its
    key, its fields and its status are all there. *)
Definition recorded (issue : value) : Prop :=
  truthy issue = true /\ truthy (prop issue "key") = true
  /\ truthy (prop issue "fields") = true
  /\ truthy (path issue ["fields"; "status"]) = true.

Definition status_of (issue : value) : value := path issue ["fields"; "status"; "name"].

(** A program that never writes to the console, whatever the tracker answers. *)
Fixpoint quiet {A : Type} (p : prog A) : Prop :=
  match p with
  | Ret _ | Throw _ => True
  | Await _ k => forall r, quiet (k r)
  | Print _ _ => False
  end.

(** [residual p q]: [q] is what is left of [p] after some of its requests were
    answered and some of its lines written. *)
Inductive residual {A : Type} : prog A -> prog A -> Prop :=
| residual_refl p : residual p p
| residual_await c k r q : residual (k r) q -> residual (Await c k) q
| residual_print line k q : residual k q -> residual (Print line k) q.

(** [p] can return [v]; [p] can throw [e]. *)
Definition returns {A : Type} (p : prog A) (v : A) : Prop := residual p (Ret v).



Definition is_settled (c : chain) : Prop :=
  match c with
  | Settled _ => True
  | Parked _ _ => False
  end.








(** ASCII lower-casing, to say that two names differ in letter case only. *)
Definition lower_char (c : ascii) : ascii :=
  let n := nat_of_ascii c in
  if (65 <=? n)%nat && (n <=? 90)%nat then ascii_of_nat (n + 32) else c.

Fixpoint lower (s : string) : string :=
  match s with
  | EmptyString => EmptyString
  | String c rest => String (lower_char c) (lower rest)
  end.

(** The transition [closeIssue] looks for. *)
Definition named_close (t : value) : bool := strict_eq_string (prop t "name") "Close Issue".

(** The four categories of the release notes and the one an issue type name
    belongs to. *)
Inductive category : Type := NewFeature | Improvement | Bug | Other.

Definition category_eqb (a b : category) : bool :=
  match a, b with
  | NewFeature, NewFeature | Improvement, Improvement | Bug, Bug | Other, Other => true
  | _, _ => false
  end.

Definition type_of (issue : value) : value := path issue ["fields"; "issuetype"; "name"].

Definition category_of (issue : value) : category :=
  if strict_eq_string (type_of issue) "New Feature" then NewFeature
  else if strict_eq_string (type_of issue) "Improvement" then Improvement
  else if strict_eq_string (type_of issue) "Bug" then Bug
  else Other.

(** The record the release notes keep of an issue. *)
Definition note_of (issue : value) : value :=
  VObj [("id", prop issue "key"); ("type", type_of issue);
        ("description", path issue ["fields"; "customfield_10101"])].

Definition in_category (c : category) (issues : list value) : list value :=
  map note_of (filter (fun i => category_eqb (category_of i) c) issues).

(** An issue the release notes can classify: the record, its fields and its
    issue type are objects. *)
Definition typed (issue : value) : Prop :=
  nullish issue = false /\ nullish (prop issue "fields") = false
  /\ nullish (path issue ["fields"; "issuetype"]) = false.

(** The line the issue query writes for an issue it found. *)
Definition found_line (issue : value) : value :=
  VStr (ToString (prop issue "key") +++ " - " +++ ToString (path issue ["fields"; "summary"])).

(** An issue the query can print: the record and its fields are objects. *)
Definition printable (issue : value) : Prop :=
  nullish issue = false /\ nullish (prop issue "fields") = false.

(** Set-Version.  The requests of its three lookups. *)
Definition sprint_lookup : call :=
  getAllSprints (VStr "14") (VNum 0) (VNum 50) (VStr "active").
Definition board_lookup (sprint : value) : call :=
  getBoardIssuesForSprint (VStr "14") (prop sprint "id").
Definition version_lookup : call := getVersions (VStr "10025").

Section SetVersionVocabulary.
Context {host : Host}.

(** The test of the version loop, [v && v.name == version]. *)
Definition named (version : string) (v : value) : bool :=
  truthy (v &&& VBool (loose_eq_string (prop v "name") version)).

(** A version entry whose name is a string other than the target, or that has
    no name. *)
Definition other_name (version : string) (v : value) : Prop :=
  match prop v "name" with
  | VStr s => s <> version
  | VUndefined | VNull => True
  | _ => False
  end.

(** The test of the issue loop: the issue is passed to the update. *)
Definition eligible (issue : value) : bool :=
  falsy (isIssueClosed issue) && falsy (doesIssueHaveFixVersion issue).

Definition update_of (versionObj issue : value) : call :=
  updateIssue (prop issue "id")
    (VObj [("fields", VObj [("fixVersions", VArr [versionObj])])]).

(** The line the issue loop writes for an issue. *)
Definition report (issue : value) : value :=
  if eligible issue
  then VStr (chalk [green] (tab +++ ToString (prop issue "key")))
  else VStr (chalk [yellow]
               (tab +++ ToString (prop issue "key") +++ " already has a version or is closed")).

Definition header_line (version : string) : value :=
  VStr (chalk [bold; underline] (nl +++ "Setting fix version to: " +++ version +++ nl)).

Definition tally_line (updatedCount issueCount : nat) : value :=
  VStr (chalk [bold; underline; green]
          (nl +++ "Updated " +++ NumberToString (Z.of_nat updatedCount) +++ " issues out of "
           +++ NumberToString (Z.of_nat issueCount) +++ " total issues." +++ nl)).

End SetVersionVocabulary.

(** A program that sends no request. *)
Fixpoint offline {A : Type} (p : prog A) : Prop :=
  match p with
  | Ret _ | Throw _ => True
  | Await _ _ => False
  | Print _ k => offline k
  end.

(** The opening of every message of [handleError]. *)
Definition generic_message : string :=
  nl +++ "Sorry, something went wrong while retrieving Jira issues:" +++ nl +++ nl.




(** The issues of a sprint as [setVersion] reads them off the answer of the
    board: the array under [issues], none when there is nothing there. *)
Definition sprint_content (answer : value) (items : list value) : Prop :=
  prop answer "issues" = VArr items
  \/ (nullish answer = false /\ truthy (prop answer "issues") = false /\ items = []).

Section DetailVocabulary.
Context {host : Host}.

(** The line of [closeIssue] for an issue it does not try to close. *)
Definition unresolved_line (issue : value) : value :=
  VStr (ToString (prop issue "key") +++ " - "
        +++ (if strict_eq_string (status_of issue) "Closed"
             then chalk [yellow] "Issue already Closed"
             else chalk [red] "Issue not Resolved yet, can't be closed")).

(** The title the comment command writes, and the three lines of a comment. *)
Definition title_line (issue : value) : value :=
  VStr (chalk [underline; green]
          (ToString (prop issue "key") +++ " - "
           +++ ToString (path issue ["fields"; "summary"]) +++ nl +++ nl)).


End DetailVocabulary.

(** ** Data of the examples *)

(** Colours off (chalk writes the text as it is when the output is no
    terminal), dates not rendered, and plain decimal literals as the numeric
    strings; no example below prints a date or compares a string with a
    number. *)
Definition plain_host : Host :=
  {| chalk := fun _ text => text;
     moment_format := fun _ _ => "";
     StringToNumber := fun s => option_map Z.of_int (NilZero.int_of_string s) |}.

Definition an_issue (key status type : string) : value :=
  VObj [("key", VStr key);
        ("fields", VObj [("summary", VStr "s");
                         ("status", VObj [("name", VStr status)]);
                         ("issuetype", VObj [("name", VStr type)]);
                         ("customfield_10101", VStr "d")])].

Definition empty_world : world := World [] [].

Definition close_transition : value := VObj [("id", VStr "2"); ("name", VStr "Close Issue")].

Definition three_issues : list value :=
  [an_issue "P-1" "Resolved" "New Feature"; an_issue "P-2" "Closed" "Bug";
   an_issue "P-3" "Open" "Weird"].

(** A tracker that matches three issues and lets the resolved one be closed. *)
Definition willing : tracker := fun _ c =>
  match c with
  | searchJira _ => Fulfilled (VObj [("issues", VArr three_issues)])
  | listTransitions _ => Fulfilled (VObj [("transitions", VArr [close_transition])])
  | transitionIssue _ _ => Fulfilled VUndefined
  | _ => Rejected VNull
  end.

(** The same tracker with the transitions of every issue out of reach. *)
Definition unreachable : value :=
  VObj [("error", VObj [("errorMessages", VArr [VStr "Service Unavailable"])])].


(** A sprint with four issues: one to update, one closed, one with a fix
    version, one more to update. *)
Definition sprint_issue (id key status : string) (fixVersions : list value) : value :=
  VObj [("id", VStr id); ("key", VStr key);
        ("fields", VObj [("status", VObj [("name", VStr status)]);
                         ("fixVersions", VArr fixVersions)])].

Definition version_1_0 : value := VObj [("id", VStr "7"); ("name", VStr "1.0")].

Definition sprint_issues : list value :=
  [sprint_issue "101" "CV-1" "Open" [];
   sprint_issue "102" "CV-2" "Closed" [];
   sprint_issue "103" "CV-3" "Open" [VObj [("name", VStr "0.9")]];
   sprint_issue "104" "CV-4" "Resolved" []].

Definition active_sprint : value := VObj [("id", VNum 5); ("state", VStr "active")].

Definition board : tracker := fun _ c =>
  match c with
  | getAllSprints _ _ _ _ => Fulfilled (VObj [("values", VArr [active_sprint])])
  | getBoardIssuesForSprint _ _ => Fulfilled (VObj [("issues", VArr sprint_issues)])
  | getVersions _ => Fulfilled (VArr [VObj [("id", VStr "6"); ("name", VStr "0.9")]; version_1_0])
  | updateIssue _ _ => Fulfilled VUndefined
  | _ => Rejected VNull
  end.

(** The same board between sprints. *)
Definition idle_board : tracker := fun history c =>
  match c with
  | getAllSprints _ _ _ _ => Fulfilled (VObj [("values", VArr [])])
  | _ => board history c
  end.

(** An issue whose issue type is [null], and a tracker that matches it. *)
Definition untyped_issue : value :=
  VObj [("key", VStr "P-9");
        ("fields", VObj [("summary", VStr "s"); ("issuetype", VNull);
                         ("customfield_10101", VStr "d")])].

Definition untyped : tracker := fun _ c =>
  match c with
  | searchJira _ => Fulfilled (VObj [("issues", VArr [an_issue "P-1" "Closed" "Bug";
                                                       untyped_issue])])
  | _ => Rejected VNull
  end.

(** An issue without a status, and a tracker that matches it. *)
Definition statusless_issue : value :=
  VObj [("key", VStr "P-8"); ("fields", VObj [("summary", VStr "s")])].

Definition statusless : tracker := fun _ c =>
  match c with
  | searchJira _ => Fulfilled (VObj [("issues", VArr [an_issue "P-2" "Closed" "Bug";
                                                       statusless_issue])])
  | _ => Rejected VNull
  end.

(** A version with one issue of each kind, and a version without issues. *)
Definition four_types : tracker := fun _ c =>
  match c with
  | searchJira _ =>
      Fulfilled (VObj [("issues", VArr [an_issue "R-1" "Closed" "New Feature";
                                        an_issue "R-2" "Closed" "Bug";
                                        an_issue "R-3" "Closed" "Weird";
                                        an_issue "R-4" "Closed" "Improvement"])])
  | _ => Rejected VNull
  end.

Definition no_issues : tracker := fun _ c =>
  match c with
  | searchJira _ => Fulfilled (VObj [("issues", VArr [])])
  | _ => Rejected VNull
  end.

(** A version with two resolved issues, both ready to be closed. *)
Definition two_resolved : tracker := fun history c =>
  match c with
  | searchJira _ =>
      Fulfilled (VObj [("issues", VArr [an_issue "Q-1" "Resolved" "Bug";
                                        an_issue "Q-2" "Resolved" "Bug"])])
  | _ => willing history c
  end.

(** A query answered with a [null] between two issues. *)
Definition ragged : tracker := fun _ c =>
  match c with
  | searchJira _ =>
      Fulfilled (VObj [("issues", VArr [an_issue "P-1" "Resolved" "New Feature"; VNull;
                                        an_issue "P-3" "Open" "Weird"])])
  | _ => Rejected VNull
  end.

(** A version whose issues are closed or still open. *)
Definition settled_version : tracker := fun _ c =>
  match c with
  | searchJira _ =>
      Fulfilled (VObj [("issues", VArr [an_issue "P-2" "Closed" "Bug";
                                        an_issue "P-3" "Open" "Weird"])])
  | _ => Rejected VNull
  end.

(** A tracker that answers the transition lookup with [null]. *)
Definition no_transitions : tracker := fun history c =>
  match c with
  | listTransitions _ => Fulfilled VNull
  | _ => willing history c
  end.

(** An issue in full, with two fix versions and two comments, and the tracker
    that holds it. *)
Definition a_comment (name email body : string) : value :=
  VObj [("author", VObj [("displayName", VStr name); ("emailAddress", VStr email)]);
        ("created", VStr "2019-03-01T10:00:00.000+0000");
        ("body", VStr body)].

Definition detailed_issue : value :=
  VObj [("key", VStr "P-5");
        ("fields",
         VObj [("summary", VStr "Crash on save");
               ("issuetype", VObj [("name", VStr "Bug")]);
               ("assignee", VObj [("displayName", VStr "Ann");
                                  ("emailAddress", VStr "ann@example.org")]);
               ("status", VObj [("name", VStr "Resolved")]);
               ("created", VStr "2019-02-27T09:30:00.000+0000");
               ("fixVersions", VArr [VObj [("name", VStr "1.0")]; VObj [("name", VStr "1.1")]]);
               ("labels", VArr [VStr "ui"; VStr "urgent"]);
               ("description", VNull);
               ("comment",
                VObj [("comments", VArr [a_comment "Ann" "ann@example.org" "Seen on 1.0";
                                         a_comment "Bob" "bob@example.org" "Fixed"])])])].

Definition desk : tracker := fun _ c =>
  match c with
  | findIssue _ => Fulfilled detailed_issue
  | _ => Rejected VNull
  end.

(** An issue with a summary and nothing else, and a record without fields. *)
Definition bare_issue : value :=
  VObj [("key", VStr "P-6"); ("fields", VObj [("summary", VStr "s")])].

Definition bare_desk : tracker := fun _ c =>
  match c with
  | findIssue _ => Fulfilled bare_issue
  | _ => Rejected VNull
  end.

Definition blank_desk : tracker := fun _ c =>
  match c with
  | findIssue _ => Fulfilled (VObj [("key", VStr "P-7")])
  | _ => Rejected VNull
  end.

(** The board of the examples with issue 104 locked against updates, and
    with a sprint lookup that answers an empty object. *)
Definition strict_board : tracker := fun history c =>
  match c with
  | updateIssue (VStr "104") _ => Rejected unreachable
  | _ => board history c
  end.

Definition shapeless_board : tracker := fun history c =>
  match c with
  | getAllSprints _ _ _ _ => Fulfilled (VObj [])
  | _ => board history c
  end.

(** A tracker that answers nothing. *)
Definition down : tracker := fun _ _ => Rejected unreachable.

(* ===================================================================== *)
(** ** General facts *)
(* ===================================================================== *)

Lemma strict_eq_string_true (v : value) (s : string) :
  strict_eq_string v s = true <-> v = VStr s.
Proof.
  destruct v; simpl; try (split; [discriminate | intros H; discriminate H]).
  rewrite String.eqb_eq. split; intros H; [subst | injection H]; auto.
Qed.

Lemma strict_eq_string_false (v : value) (s : string) :
  strict_eq_string v s = false <-> v <> VStr s.
Proof.
  rewrite <- strict_eq_string_true. destruct (strict_eq_string v s); split; congruence.
Qed.

Lemma run_bind (jira : tracker) {A B : Type} (p : prog A) (f : A -> prog B) (w : world) :
  run jira (bind p f) w =
  match run jira p w with
  | (Fulfilled a, w') => run jira (f a) w'
  | (Rejected e, w') => (Rejected e, w')
  end.
Proof.
  revert w. induction p as [a | e | c k IH | line k IH]; intros w; simpl; auto.
Qed.

Lemma run_try_catch (jira : tracker) {A : Type} (p : prog A) (h : value -> prog A) (w : world) :
  run jira (try_catch p h) w =
  match run jira p w with
  | (Fulfilled a, w') => (Fulfilled a, w')
  | (Rejected e, w') => run jira (h e) w'
  end.
Proof.
  revert w. induction p as [a | e | c k IH | line k IH]; intros w; simpl; auto.
Qed.

Lemma sent_sent (a b : call) (w : world) :
  sent b (sent a w) = {| calls := calls w ++ [a; b]; console := console w |}.
Proof. unfold sent; simpl. now rewrite <- app_assoc. Qed.

(* ===================================================================== *)
(** ** Close-Issues: the per-issue handler *)
(* ===================================================================== *)

Section CloseIssue.
Context {host : Host}.

Lemma closeIssue_guard (issue : value) :
  recorded issue ->
  falsy issue || falsy (prop issue "key") || falsy (prop issue "fields")
    || falsy (path issue ["fields"; "status"]) = false.
Proof.
  intros (H1 & H2 & H3 & H4). unfold falsy. now rewrite H1, H2, H3, H4.
Qed.

(** A record that fails the guard is answered with [undefined]. *)
Lemma closeIssue_skipped (issue : value) :
  falsy issue || falsy (prop issue "key") || falsy (prop issue "fields")
    || falsy (path issue ["fields"; "status"]) = true ->
  closeIssue issue = Ret VUndefined.
Proof. intros H. unfold closeIssue. now rewrite H. Qed.

Lemma closeIssue_closed (issue : value) :
  recorded issue -> status_of issue = VStr "Closed" ->
  closeIssue issue
  = Ret (VStr (ToString (prop issue "key") +++ " - " +++ chalk [yellow] "Issue already Closed")).
Proof.
  intros Hrec Hst. unfold closeIssue. rewrite (closeIssue_guard _ Hrec).
  fold (status_of issue). now rewrite Hst.
Qed.

Lemma closeIssue_other_status (issue : value) :
  recorded issue -> status_of issue <> VStr "Closed" -> status_of issue <> VStr "Resolved" ->
  closeIssue issue
  = Ret (VStr (ToString (prop issue "key") +++ " - "
               +++ chalk [red] "Issue not Resolved yet, can't be closed")).
Proof.
  intros Hrec Hc Hr. unfold closeIssue. rewrite (closeIssue_guard _ Hrec).
  fold (status_of issue).
  apply strict_eq_string_false in Hc, Hr. now rewrite Hc, Hr.
Qed.

(** Whatever the record, a status other than "Resolved" ends the handler
    before its first request. *)
Lemma closeIssue_returns_at_once (issue : value) :
  status_of issue <> VStr "Resolved" -> exists v, closeIssue issue = Ret v.
Proof.
  intros Hr. unfold closeIssue. fold (status_of issue).
  destruct (falsy issue || _ || _ || _); [eauto |].
  destruct (strict_eq_string (status_of issue) "Closed"); [eauto |].
  apply strict_eq_string_false in Hr. rewrite Hr. simpl. eauto.
Qed.

(** C1. For an issue whose status is not "Resolved", [closeIssue] sends no
    request to the tracker and writes nothing: it leaves the world as it found
    it.  When the status is "Closed" it returns "{key} - Issue already Closed",
    and for any other status that is not "Resolved" it returns
    "{key} - Issue not Resolved yet, can't be closed". *)
Theorem closeIssue_not_resolved (issue : value) :
  status_of issue <> VStr "Resolved" ->
  (forall (jira : tracker) (w : world), snd (run jira (closeIssue issue) w) = w)
  /\ (recorded issue -> status_of issue = VStr "Closed" ->
      forall (jira : tracker) (w : world),
        run jira (closeIssue issue) w
        = (Fulfilled (VStr (ToString (prop issue "key") +++ " - "
                            +++ chalk [yellow] "Issue already Closed")), w))
  /\ (recorded issue -> status_of issue <> VStr "Closed" ->
      forall (jira : tracker) (w : world),
        run jira (closeIssue issue) w
        = (Fulfilled (VStr (ToString (prop issue "key") +++ " - "
                            +++ chalk [red] "Issue not Resolved yet, can't be closed")), w)).
Proof.
  intros Hr. repeat split.
  - intros jira w. destruct (closeIssue_returns_at_once issue Hr) as [v ->]. reflexivity.
  - intros Hrec Hc jira w. now rewrite closeIssue_closed.
  - intros Hrec Hc jira w. now rewrite closeIssue_other_status.
Qed.

(** C10. The status is compared with exact, case-sensitive string equality: a
    status name that differs from "Closed" or "Resolved" in letter case only
    takes the "not Resolved yet" branch, with no transition lookup and no
    transition applied (the world is left as it was). *)
Theorem closeIssue_status_case_sensitive (issue : value) (name : string) :
  recorded issue -> status_of issue = VStr name ->
  lower name = lower "Closed" \/ lower name = lower "Resolved" ->
  name <> "Closed" -> name <> "Resolved" ->
  forall (jira : tracker) (w : world),
    run jira (closeIssue issue) w
    = (Fulfilled (VStr (ToString (prop issue "key") +++ " - "
                        +++ chalk [red] "Issue not Resolved yet, can't be closed")), w).
Proof.
  intros Hrec Hst _ Hc Hr jira w.
  rewrite closeIssue_other_status; auto; rewrite Hst; congruence.
Qed.

End CloseIssue.

Lemma closeIssue_not_resolved_witness :
  run (fun _ _ => Rejected VNull) (closeIssue (host := plain_host) (an_issue "P-2" "Closed" "Bug"))
      empty_world
  = (Fulfilled (VStr "P-2 - Issue already Closed"), empty_world).
Proof.
  refine (proj1 (proj2 (closeIssue_not_resolved (host := plain_host)
                          (an_issue "P-2" "Closed" "Bug") _)) _ _ _ _).
  - discriminate.
  - repeat split; reflexivity.
  - reflexivity.
Defined.

Lemma closeIssue_status_case_sensitive_witness :
  run (fun _ _ => Rejected VNull) (closeIssue (host := plain_host) (an_issue "P-4" "closed" "Bug"))
      empty_world
  = (Fulfilled (VStr "P-4 - Issue not Resolved yet, can't be closed"), empty_world).
Proof.
  refine (closeIssue_status_case_sensitive (host := plain_host)
            (an_issue "P-4" "closed" "Bug") "closed" _ _ _ _ _ _ _).
  - repeat split; reflexivity.
  - reflexivity.
  - left; reflexivity.
  - discriminate.
  - discriminate.
Defined.

(* ===================================================================== *)
(** ** Close-Issues: a resolved issue *)
(* ===================================================================== *)

Section CloseResolved.
Context {host : Host}.
Variable jira : tracker.

Lemma recorded_key_truthy (issue : value) :
  recorded issue -> falsy (prop issue "key") = false.
Proof. intros (_ & H & _). unfold falsy. now rewrite H. Qed.

(** [transitions.find(t => t.name === 'Close Issue')] on an array of
    transition records is the first record with that name. *)
Lemma find_first_named_close (ts : list value) :
  Forall (fun t => nullish t = false) ts ->
  find_first (fun t => name <- get t "name";; Ret (strict_eq_string name "Close Issue")) ts
  = Ret (match find named_close ts with Some t => t | None => VUndefined end).
Proof.
  induction 1 as [| t ts Ht _ IH]; simpl; [reflexivity |].
  unfold get. rewrite Ht. simpl. fold (named_close t).
  destruct (named_close t); [reflexivity | exact IH].
Qed.

Lemma has_transitions_truthy (resp : value) (ts : list value) :
  prop resp "transitions" = VArr ts -> truthy resp = true.
Proof. destruct resp; simpl; try discriminate; auto. Qed.

(** The handler of a resolved issue up to the point where it has looked for
    the transition. *)
Lemma closeIssue_resolved_lookup (issue resp : value) (ts : list value) (w : world) :
  recorded issue -> status_of issue = VStr "Resolved" ->
  jira (calls w ++ [listTransitions (prop issue "key")]) (listTransitions (prop issue "key"))
  = Fulfilled resp ->
  prop resp "transitions" = VArr ts ->
  Forall (fun t => nullish t = false) ts ->
  run jira (closeIssue issue) w
  = let key := prop issue "key" in
    let closeTransition := match find named_close ts with Some t => t | None => VUndefined end in
    run jira
      (if truthy (closeTransition &&& prop closeTransition "id") then
         await (transitionIssue key (VObj [("transition", prop closeTransition "id")]));;
         Ret (VStr (ToString key +++ " - " +++ chalk [green] "Closed"))
       else
         Ret (VStr (ToString key +++ " - "
                    +++ chalk [red] "Close Transition not available, reason unknown...")))
      (sent (listTransitions key) w).
Proof.
  intros Hrec Hst Hans Hts Hall. unfold closeIssue.
  rewrite (closeIssue_guard _ Hrec). fold (status_of issue). rewrite Hst. simpl negb.
  cbv iota. unfold getTransitions. rewrite (recorded_key_truthy _ Hrec).
  simpl. rewrite Hans. simpl.
  rewrite (has_transitions_truthy _ _ Hts), Hts. simpl find_array.
  rewrite (find_first_named_close _ Hall). reflexivity.
Qed.

(** C2. For an issue whose status is "Resolved", [closeIssue] fetches the
    issue's transitions.  When the first transition named exactly
    "Close Issue" has a valid identifier, exactly one [transitionIssue]
    request is sent, for that identifier, and "{key} - Closed" is returned
    once the tracker has accepted it (a refusal is thrown on).  When there is
    no such transition, or it has no valid identifier, no [transitionIssue]
    request is sent and
    "{key} - Close Transition not available, reason unknown..." is returned. *)
Theorem closeIssue_resolved (issue resp : value) (ts : list value) (w : world) :
  recorded issue -> status_of issue = VStr "Resolved" ->
  jira (calls w ++ [listTransitions (prop issue "key")]) (listTransitions (prop issue "key"))
  = Fulfilled resp ->
  prop resp "transitions" = VArr ts ->
  Forall (fun t => nullish t = false) ts ->
  let key := prop issue "key" in
  (forall t, find named_close ts = Some t -> truthy (prop t "id") = true ->
     let apply := transitionIssue key (VObj [("transition", prop t "id")]) in
     let w' := {| calls := calls w ++ [listTransitions key; apply]; console := console w |} in
     run jira (closeIssue issue) w
     = (match jira (calls w') apply with
        | Fulfilled _ => Fulfilled (VStr (ToString key +++ " - " +++ chalk [green] "Closed"))
        | Rejected e => Rejected e
        end, w'))
  /\ ((find named_close ts = None
       \/ exists t, find named_close ts = Some t /\ truthy (prop t "id") = false) ->
      run jira (closeIssue issue) w
      = (Fulfilled (VStr (ToString key +++ " - "
                          +++ chalk [red] "Close Transition not available, reason unknown...")),
         {| calls := calls w ++ [listTransitions key]; console := console w |})).
Proof.
  intros Hrec Hst Hans Hts Hall key. split.
  - intros t Hfind Hid apply w'.
    rewrite (closeIssue_resolved_lookup _ _ _ _ Hrec Hst Hans Hts Hall).
    cbv zeta. rewrite Hfind.
    assert (Ht : truthy t = true).
    { apply find_some in Hfind. destruct Hfind as [_ Hn]. unfold named_close in Hn.
      destruct t; simpl in *; try discriminate; auto. }
    unfold js_and. rewrite Ht, Hid. subst apply w' key. simpl.
    rewrite <- app_assoc. simpl.
    destruct (jira _ (transitionIssue _ _)); simpl; rewrite sent_sent; reflexivity.
  - intros Hnone.
    rewrite (closeIssue_resolved_lookup _ _ _ _ Hrec Hst Hans Hts Hall).
    cbv zeta. fold key.
    destruct Hnone as [Hnone | (t & Hfind & Hid)].
    + rewrite Hnone. reflexivity.
    + rewrite Hfind. unfold js_and. destruct (truthy t) eqn:Ht; [rewrite Hid | rewrite Ht]; reflexivity.
Qed.

End CloseResolved.

Lemma closeIssue_resolved_witness :
  run willing (closeIssue (host := plain_host) (an_issue "P-1" "Resolved" "New Feature"))
      empty_world
  = (Fulfilled (VStr "P-1 - Closed"),
     {| calls := [listTransitions (VStr "P-1");
                  transitionIssue (VStr "P-1") (VObj [("transition", VStr "2")])];
        console := [] |}).
Proof.
  refine (proj1 (closeIssue_resolved (host := plain_host) willing
                   (an_issue "P-1" "Resolved" "New Feature")
                   (VObj [("transitions", VArr [close_transition])]) [close_transition]
                   empty_world _ _ _ _ _) close_transition _ _).
  - repeat split; reflexivity.
  - reflexivity.
  - reflexivity.
  - reflexivity.
  - repeat constructor.
  - reflexivity.
  - reflexivity.
Defined.

(* ===================================================================== *)
(** ** Programs and what is left of them *)
(* ===================================================================== *)



Lemma quiet_bind {A B : Type} (p : prog A) (f : A -> prog B) :
  quiet p -> (forall a, quiet (f a)) -> quiet (bind p f).
Proof.
  induction p as [a | e | c k IH | line k IH]; simpl; intros Hp Hf; auto.
Qed.

Lemma run_quiet (jira : tracker) {A : Type} (p : prog A) (w : world) :
  quiet p -> console (snd (run jira p w)) = console w.
Proof.
  revert w. induction p as [a | e | c k IH | line k IH]; simpl; intros w Hq; auto.
  - now rewrite IH.
  - contradiction.
Qed.


(* ===================================================================== *)
(** ** The join of the close command *)
(* ===================================================================== *)

Section JoinFacts.
Context {host : Host}.
Variable jira : tracker.















End JoinFacts.

(* ===================================================================== *)
(** ** The join on the answers of the tracker *)
(* ===================================================================== *)















Section JoinAnswers.
Context {host : Host}.
Variable jira : tracker.













End JoinAnswers.

(* ===================================================================== *)
(** ** Close-Issues: the workflow *)
(* ===================================================================== *)

Section CloseIssues.
Context {host : Host}.
Variable jira : tracker.

Lemma find_first_quiet (f : value -> prog bool) (l : list value) :
  (forall t, quiet (f t)) -> quiet (find_first f l).
Proof.
  intros Hf. induction l as [| t l IH]; simpl; [exact I |].
  apply quiet_bind; [apply Hf |]. intros [|]; simpl; auto.
Qed.

Lemma get_quiet (v : value) (k : string) : quiet (get v k).
Proof. unfold get. destruct (nullish v); exact I. Qed.

Lemma await_quiet (c : call) : quiet (await c).
Proof. intros [v | e]; exact I. Qed.

(** [closeIssue] writes nothing itself: its line is its result. *)
Lemma closeIssue_quiet (issue : value) : quiet (closeIssue issue).
Proof.
  unfold closeIssue.
  destruct (falsy issue || _ || _ || _); [exact I |].
  destruct (strict_eq_string _ "Closed"); [exact I |].
  destruct (negb _); [exact I |].
  apply quiet_bind.
  { unfold getTransitions. destruct (falsy _); [exact I | apply await_quiet]. }
  intros transitions. apply quiet_bind.
  { destruct (truthy transitions); [| exact I].
    unfold find_array. destruct (prop transitions "transitions"); try exact I.
    apply find_first_quiet. intros t. apply quiet_bind; [apply get_quiet |].
    intros name. exact I. }
  intros closeTransition. destruct (truthy _); [| exact I].
  apply quiet_bind; [apply await_quiet | intros _; exact I].
Qed.

Lemma run_each_console_log {A : Type} (lines : list value) (k : prog A) (w : world) :
  run jira (each console_log lines;; k) w
  = run jira k {| calls := calls w; console := console w ++ lines |}.
Proof.
  revert w. induction lines as [| line lines IH]; intros w; simpl.
  - rewrite app_nil_r. now destruct w.
  - rewrite IH. unfold logged; simpl. now rewrite <- app_assoc.
Qed.

Lemma Forall2_map_left {A B C : Type} (f : A -> B) (R : B -> C -> Prop)
    (l : list A) (l' : list C) :
  Forall2 R (map f l) l' -> Forall2 (fun a c => R (f a) c) l l'.
Proof.
  revert l'. induction l as [| a l IH]; intros l' H; inversion H; subst; constructor; auto.
Qed.





End CloseIssues.


(** Two chains answered in the order of the issues, and with the second
    chain answered first throughout: the transitions are applied in the order
    of the answers, the results are written in the order of the issues. *)
Example closeIssues_in_query_order :
  closeIssues (host := plain_host) two_resolved "3.0" [0; 1; 0; 1] empty_world
  = (Fulfilled VUndefined,
     {| calls := [searchJira (VStr "fixVersion=3.0");
                  listTransitions (VStr "Q-1"); listTransitions (VStr "Q-2");
                  transitionIssue (VStr "Q-1") (VObj [("transition", VStr "2")]);
                  transitionIssue (VStr "Q-2") (VObj [("transition", VStr "2")])];
        console := [VStr "Q-1 - s"; VStr "Q-2 - s"; VStr "Q-1 - Closed"; VStr "Q-2 - Closed"] |})
  /\ closeIssues (host := plain_host) two_resolved "3.0" [1; 1; 0; 0] empty_world
     = (Fulfilled VUndefined,
        {| calls := [searchJira (VStr "fixVersion=3.0");
                     listTransitions (VStr "Q-1"); listTransitions (VStr "Q-2");
                     transitionIssue (VStr "Q-2") (VObj [("transition", VStr "2")]);
                     transitionIssue (VStr "Q-1") (VObj [("transition", VStr "2")])];
           console := [VStr "Q-1 - s"; VStr "Q-2 - s"; VStr "Q-1 - Closed"; VStr "Q-2 - Closed"] |}).
Proof. split; reflexivity. Qed.


(* ===================================================================== *)
(** ** The issue query *)
(* ===================================================================== *)

Section Search.
Context {host : Host}.
Variable jira : tracker.

Lemma has_issues_truthy (results : value) (items : list value) :
  prop results "issues" = VArr items -> truthy results = true.
Proof. destruct results; simpl; try discriminate; auto. Qed.

Lemma run_print_found {A : Type} (items : list value) (k : prog A) (w : world) :
  Forall printable items ->
  run jira
    (each (fun i =>
             key <- get i "key";;
             fields <- get i "fields";;
             summary <- get fields "summary";;
             console_log (VStr (ToString key +++ " - " +++ ToString summary))) items;; k) w
  = run jira k {| calls := calls w; console := console w ++ map found_line items |}.
Proof.
  intros H. revert w. induction H as [| i items [Hi Hf] _ IH]; intros w; simpl.
  - rewrite app_nil_r. now destruct w.
  - unfold get. rewrite Hi. simpl. rewrite Hf. simpl. rewrite IH.
    unfold logged, found_line; simpl. now rewrite <- app_assoc.
Qed.

(** A query that is answered with printable issues returns them, in the
    order of the answer, after one request and one line per issue. *)
Lemma search_found (query : string) (results : value) (items : list value) (w : world) :
  query <> "" ->
  jira (calls w ++ [searchJira (VStr query)]) (searchJira (VStr query)) = Fulfilled results ->
  prop results "issues" = VArr items ->
  Forall printable items ->
  run jira (search query) w
  = (Fulfilled (VArr items),
     {| calls := calls w ++ [searchJira (VStr query)];
        console := console w ++ map found_line items |}).
Proof.
  intros Hq Hans Hissues Hall. unfold search.
  assert (Hf : falsy (VStr query) = false).
  { unfold falsy; simpl. apply String.eqb_neq in Hq. now rewrite Hq. }
  rewrite Hf, run_try_catch. simpl. rewrite Hans. simpl.
  unfold js_and. rewrite (has_issues_truthy _ _ Hissues), Hissues. simpl.
  rewrite run_print_found; auto.
Qed.

(** Whatever goes wrong inside the query, the request or the printing of a
    malformed record, is caught there: [search] never rejects. *)
Lemma search_never_rejects (query : string) (w : world) :
  exists v, fst (run jira (search query) w) = Fulfilled v.
Proof.
  unfold search. destruct (falsy (VStr query)); [simpl; eauto |].
  rewrite run_try_catch.
  match goal with |- context [run jira ?body w] => destruct (run jira body w) as [[v | e] w1] end.
  - simpl; eauto.
  - unfold handleError. simpl. eauto.
Qed.

(** A rejected query leaves [search] with [undefined], after the message of
    [handleError]. *)
Lemma search_failed (query : string) (e : value) (w : world) :
  query <> "" ->
  jira (calls w ++ [searchJira (VStr query)]) (searchJira (VStr query)) = Rejected e ->
  run jira (search query) w
  = (Fulfilled VUndefined, snd (run jira (handleError e) (sent (searchJira (VStr query)) w))).
Proof.
  intros Hq Hans. unfold search.
  assert (Hf : falsy (VStr query) = false).
  { unfold falsy; simpl. apply String.eqb_neq in Hq. now rewrite Hq. }
  rewrite Hf, run_try_catch. simpl. rewrite Hans. simpl. reflexivity.
Qed.

End Search.

(* ===================================================================== *)
(** ** Release notes *)
(* ===================================================================== *)

Section ReleaseNotes.
Context {host : Host}.
Variable jira : tracker.

Lemma category_of_NewFeature (i : value) :
  category_of i = NewFeature <-> type_of i = VStr "New Feature".
Proof.
  unfold category_of. rewrite <- strict_eq_string_true.
  destruct (strict_eq_string (type_of i) "New Feature"); [tauto |].
  repeat destruct (strict_eq_string _ _); split; discriminate.
Qed.

Lemma category_of_Improvement (i : value) :
  category_of i = Improvement <-> type_of i = VStr "Improvement".
Proof.
  unfold category_of. rewrite <- strict_eq_string_true.
  destruct (strict_eq_string (type_of i) "New Feature") eqn:E.
  - apply strict_eq_string_true in E. rewrite E. simpl. split; discriminate.
  - destruct (strict_eq_string (type_of i) "Improvement"); [tauto |].
    destruct (strict_eq_string (type_of i) "Bug"); split; discriminate.
Qed.

Lemma category_of_Bug (i : value) :
  category_of i = Bug <-> type_of i = VStr "Bug".
Proof.
  unfold category_of. rewrite <- strict_eq_string_true.
  destruct (strict_eq_string (type_of i) "New Feature") eqn:E.
  { apply strict_eq_string_true in E. rewrite E. simpl. split; discriminate. }
  destruct (strict_eq_string (type_of i) "Improvement") eqn:E'.
  { apply strict_eq_string_true in E'. rewrite E'. simpl. split; discriminate. }
  destruct (strict_eq_string (type_of i) "Bug"); [tauto | split; discriminate].
Qed.

Lemma category_of_Other (i : value) :
  category_of i = Other
  <-> type_of i <> VStr "New Feature" /\ type_of i <> VStr "Improvement"
      /\ type_of i <> VStr "Bug".
Proof.
  rewrite <- !strict_eq_string_false. unfold category_of.
  repeat destruct (strict_eq_string _ _); intuition discriminate.
Qed.

Lemma categorize_typed (i : value) (c : categories) :
  typed i ->
  categorize i c
  = Ret (match category_of i with
         | NewFeature => Categories (newFeatures c ++ [note_of i]) (improved c) (fixes c) (other c)
         | Improvement => Categories (newFeatures c) (improved c ++ [note_of i]) (fixes c) (other c)
         | Bug => Categories (newFeatures c) (improved c) (fixes c ++ [note_of i]) (other c)
         | Other => Categories (newFeatures c) (improved c) (fixes c) (other c ++ [note_of i])
         end).
Proof.
  intros (Hi & Hf & Ht). unfold categorize, get. rewrite Hi. simpl.
  rewrite Hf. simpl. unfold path in Ht. simpl in Ht. rewrite Ht. simpl.
  unfold category_of, type_of, note_of, path. simpl.
  repeat destruct (strict_eq_string _ _); reflexivity.
Qed.

Lemma categorize_all_typed (items : list value) (c : categories) :
  Forall typed items ->
  categorize_all items c
  = Ret (Categories (newFeatures c ++ in_category NewFeature items)
                    (improved c ++ in_category Improvement items)
                    (fixes c ++ in_category Bug items)
                    (other c ++ in_category Other items)).
Proof.
  intros H. revert c. induction H as [| i items Hi _ IH]; intros c; simpl.
  - unfold in_category; simpl. rewrite !app_nil_r. now destruct c.
  - rewrite (categorize_typed _ _ Hi). simpl. rewrite IH.
    unfold in_category; simpl.
    destruct (category_of i); simpl; rewrite <- ?app_assoc; reflexivity.
Qed.

Lemma in_category_lengths (items : list value) :
  (length (in_category NewFeature items) + length (in_category Improvement items)
   + length (in_category Bug items) + length (in_category Other items) = length items)%nat.
Proof.
  unfold in_category. induction items as [| i items IH]; simpl; [reflexivity |].
  destruct (category_of i); simpl; rewrite ?length_map in *; simpl; lia.
Qed.

Lemma typed_printable (i : value) : typed i -> printable i.
Proof. intros (H1 & H2 & _). split; assumption. Qed.

(** C4. When the query for the version is answered with a non-empty list of
    issues, each with its issue type, [generateReleaseNotes] returns the
    version with four categories: every issue goes to the category of its
    type name, [newFeatures] iff the name is exactly "New Feature",
    [improved] iff "Improvement", [fixes] iff "Bug", [other] for anything
    else; each category keeps the order of the query ([in_category] filters
    the input without sorting), the four together hold as many records as
    there are issues, and the record of an issue is its key, its type name and
    its customfield_10101.  An empty answer yields [null]. *)
Theorem generateReleaseNotes_partition (version : string) (results : value)
    (items : list value) (w : world) :
  version <> "" ->
  jira (calls w ++ [searchJira (VStr ("fixVersion=" +++ version))])
       (searchJira (VStr ("fixVersion=" +++ version))) = Fulfilled results ->
  prop results "issues" = VArr items ->
  Forall typed items ->
  (items <> [] ->
   fst (run jira (generateReleaseNotes version) w)
   = Fulfilled (VObj [("version", VStr version);
                      ("newFeatures", VArr (in_category NewFeature items));
                      ("improved", VArr (in_category Improvement items));
                      ("fixes", VArr (in_category Bug items));
                      ("other", VArr (in_category Other items))]))
  /\ (items = [] -> fst (run jira (generateReleaseNotes version) w) = Fulfilled VNull)
  /\ (forall i, (category_of i = NewFeature <-> type_of i = VStr "New Feature")
                /\ (category_of i = Improvement <-> type_of i = VStr "Improvement")
                /\ (category_of i = Bug <-> type_of i = VStr "Bug")
                /\ (category_of i = Other
                    <-> type_of i <> VStr "New Feature" /\ type_of i <> VStr "Improvement"
                        /\ type_of i <> VStr "Bug"))
  /\ (length (in_category NewFeature items) + length (in_category Improvement items)
      + length (in_category Bug items) + length (in_category Other items)
      = length items)%nat.
Proof.
  intros Hv Hans Hissues Htyped.
  assert (Hrun : run jira (getIssuesByFixVersion version) w
                 = (Fulfilled (VArr items),
                    {| calls := calls w ++ [searchJira (VStr ("fixVersion=" +++ version))];
                       console := console w ++ map found_line items |})).
  { unfold getIssuesByFixVersion.
    assert (Hf : falsy (VStr version) = false).
    { unfold falsy; simpl. apply String.eqb_neq in Hv. now rewrite Hv. }
    rewrite Hf. apply search_found with (results := results); auto.
    - discriminate.
    - eapply Forall_impl; [| exact Htyped]. apply typed_printable. }
  assert (Hnotes : forall k : option value -> prog value, run jira (fetched <- try_catch
                      (issues <- getIssuesByFixVersion version;; Ret (Some issues))
                      (fun e => console_log (VStr (chalk [red] (ToString e)));; Ret None);; k fetched) w
                    = run jira (k (Some (VArr items)))
                        {| calls := calls w ++ [searchJira (VStr ("fixVersion=" +++ version))];
                           console := console w ++ map found_line items |}).
  { intros k. rewrite run_bind, run_try_catch, run_bind, Hrun. reflexivity. }
  split; [| split; [| split]].
  - intros Hne. unfold generateReleaseNotes. rewrite Hnotes.
    destruct items as [| i items]; [congruence |].
    change (falsy (VArr (i :: items)) || falsy (prop (VArr (i :: items)) "length"))
      with false.
    cbv iota. rewrite run_bind, (categorize_all_typed _ _ Htyped). reflexivity.
  - intros ->. unfold generateReleaseNotes. rewrite Hnotes. reflexivity.
  - intros i. split; [apply category_of_NewFeature |].
    split; [apply category_of_Improvement |].
    split; [apply category_of_Bug | apply category_of_Other].
  - apply in_category_lengths.
Qed.

End ReleaseNotes.

Lemma generateReleaseNotes_partition_witness :
  fst (run willing (generateReleaseNotes (host := plain_host) "1.0") empty_world)
  = Fulfilled
      (VObj [("version", VStr "1.0");
             ("newFeatures",
              VArr [VObj [("id", VStr "P-1"); ("type", VStr "New Feature");
                          ("description", VStr "d")]]);
             ("improved", VArr []);
             ("fixes",
              VArr [VObj [("id", VStr "P-2"); ("type", VStr "Bug"); ("description", VStr "d")]]);
             ("other",
              VArr [VObj [("id", VStr "P-3"); ("type", VStr "Weird");
                          ("description", VStr "d")]])]).
Proof.
  refine (proj1 (generateReleaseNotes_partition (host := plain_host) willing "1.0"
                   (VObj [("issues", VArr three_issues)]) three_issues empty_world
                   _ _ _ _) _).
  - discriminate.
  - reflexivity.
  - reflexivity.
  - repeat constructor.
  - discriminate.
Defined.

(** One issue of each kind, in the order New Feature, Bug, other, Improvement:
    one record per category. *)
Example generateReleaseNotes_four_types :
  fst (run four_types (generateReleaseNotes (host := plain_host) "2.0") empty_world)
  = Fulfilled
      (VObj [("version", VStr "2.0");
             ("newFeatures", VArr [note_of (an_issue "R-1" "Closed" "New Feature")]);
             ("improved", VArr [note_of (an_issue "R-4" "Closed" "Improvement")]);
             ("fixes", VArr [note_of (an_issue "R-2" "Closed" "Bug")]);
             ("other", VArr [note_of (an_issue "R-3" "Closed" "Weird")])]).
Proof. reflexivity. Qed.

Example generateReleaseNotes_no_issues :
  fst (run no_issues (generateReleaseNotes (host := plain_host) "2.0") empty_world)
  = Fulfilled VNull.
Proof. reflexivity. Qed.

(* ===================================================================== *)
(** ** Set-Version *)
(* ===================================================================== *)

Section SetVersion.
Context {host : Host}.
Variable jira : tracker.

Lemma iterations_length (items : list value) :
  iterations (prop (VArr items) "length") = length items.
Proof. unfold iterations; simpl. apply Nat2Z.id. Qed.

Lemma index_middle (pre post : list value) (v : value) :
  index (VArr (pre ++ v :: post)) (length pre) = v.
Proof. simpl. apply nth_middle. Qed.

Lemma snoc_cons {A : Type} (pre post : list A) (x : A) :
  pre ++ x :: post = (pre ++ [x]) ++ post.
Proof. now rewrite <- app_assoc. Qed.

Lemma length_snoc {A : Type} (pre : list A) (x : A) : length (pre ++ [x]) = S (length pre).
Proof. rewrite length_app. simpl. lia. Qed.

(** The version loop returns the first entry that passes its test. *)
Lemma findVersion_first (version : string) (pre post : list value) :
  findVersion (VArr (pre ++ post)) version (length pre) (length post)
  = match find (named version) post with Some v => v | None => VNull end.
Proof.
  revert pre. induction post as [| v post IH]; intros pre; [reflexivity |].
  cbn [length findVersion find]. rewrite index_middle. fold (named version v).
  destruct (named version v); [reflexivity |].
  rewrite snoc_cons, <- (length_snoc pre v). apply IH.
Qed.

Lemma other_name_not_named (version : string) (v : value) :
  other_name version v -> named version v = false.
Proof.
  unfold other_name, named, js_and. intros H.
  destruct (truthy v) eqn:Hv; [| exact Hv].
  destruct (prop v "name"); simpl in *; try tauto.
  apply String.eqb_neq. exact H.
Qed.

Lemma findVersion_none (version : string) (vs : list value) :
  Forall (other_name version) vs ->
  findVersion (VArr vs) version 0 (iterations (prop (VArr vs) "length")) = VNull.
Proof.
  intros H. rewrite iterations_length.
  change (findVersion (VArr vs) version 0 (length vs))
    with (findVersion (VArr ([] ++ vs)) version (length (@nil value)) (length vs)).
  rewrite findVersion_first.
  induction H as [| v vs Hv _ IH]; simpl; [reflexivity |].
  now rewrite (other_name_not_named _ _ Hv).
Qed.

Lemma run_console_log {A : Type} (line : value) (f : unit -> prog A) (w : world) :
  run jira (bind (console_log line) f) w = run jira (f tt) (logged line w).
Proof. reflexivity. Qed.

Lemma run_await {A : Type} (c : call) (f : value -> prog A) (w : world) :
  run jira (bind (await c) f) w
  = match jira (calls w ++ [c]) c with
    | Fulfilled v => run jira (f v) (sent c w)
    | Rejected e => (Rejected e, sent c w)
    end.
Proof. simpl. destruct (jira (calls w ++ [c]) c); reflexivity. Qed.

Lemma run_get {A : Type} (v : value) (k : string) (f : value -> prog A) (w : world) :
  nullish v = false -> run jira (bind (get v k) f) w = run jira (f (prop v k)) w.
Proof. intros H. unfold get. now rewrite H. Qed.

Lemma run_get_index {A : Type} (v : value) (i : nat) (f : value -> prog A) (w : world) :
  nullish v = false -> run jira (bind (get_index v i) f) w = run jira (f (index v i)) w.
Proof. intros H. unfold get_index. now rewrite H. Qed.

Lemma has_array_not_nullish (v : value) (k : string) (items : list value) :
  prop v k = VArr items -> nullish v = false.
Proof. destruct v; simpl; congruence. Qed.

(** [setVersion] up to the sprint it works on. *)
Lemma run_setVersion_start (version : string) (sprints : value) (sps : list value)
    (k : value -> prog value) (w : world) :
  jira (calls w ++ [sprint_lookup]) sprint_lookup = Fulfilled sprints ->
  prop sprints "values" = VArr sps ->
  run jira (bind (console_log (header_line version))
              (fun _ => sprints <- await sprint_lookup;;
                        values <- get sprints "values";;
                        activeSprint <- get_index values 0;; k activeSprint)) w
  = run jira (k (nth 0 sps VUndefined))
      {| calls := calls w ++ [sprint_lookup]; console := console w ++ [header_line version] |}.
Proof.
  intros Hans Hvalues. rewrite run_console_log, run_await. simpl calls. rewrite Hans.
  rewrite run_get by (eapply has_array_not_nullish; eauto).
  rewrite Hvalues, run_get_index by reflexivity. reflexivity.
Qed.

(** C7. [setVersion] sends no update and returns early in both lookup
    failures.  When the sprint lookup finds no active sprint (the first of the
    sprints it returns is missing or has no identifier), the handler writes
    "Active sprint not found" and returns [null] after that single request.
    When no version of the project has the target name (names are compared as
    strings, letter case included), it writes Version "<version>" not found
    and returns [null] after the three lookups: no version is created and no
    issue is updated. *)
Theorem setVersion_lookup_failures (version : string) (sprintId sprints : value)
    (sps : list value) (w : world) :
  jira (calls w ++ [sprint_lookup]) sprint_lookup = Fulfilled sprints ->
  prop sprints "values" = VArr sps ->
  let activeSprint := nth 0 sps VUndefined in
  (truthy activeSprint && truthy (prop activeSprint "id") = false ->
   run jira (setVersion version sprintId) w
   = (Fulfilled VNull,
      {| calls := calls w ++ [sprint_lookup];
         console := console w ++ [header_line version;
                                  VStr (chalk [bold; red] "Active sprint not found")] |}))
  /\ (forall (issues : value) (vs : list value),
        truthy activeSprint && truthy (prop activeSprint "id") = true ->
        jira (calls w ++ [sprint_lookup; board_lookup activeSprint])
             (board_lookup activeSprint) = Fulfilled issues ->
        jira (calls w ++ [sprint_lookup; board_lookup activeSprint; version_lookup])
             version_lookup = Fulfilled (VArr vs) ->
        Forall (other_name version) vs ->
        run jira (setVersion version sprintId) w
        = (Fulfilled VNull,
           {| calls := calls w ++ [sprint_lookup; board_lookup activeSprint; version_lookup];
              console :=
                console w ++ [header_line version;
                              VStr (chalk [bold; red]
                                      ("Version " +++ dquote +++ version +++ dquote
                                       +++ " not found"))] |})).
Proof.
  intros Hans Hvalues activeSprint.
  split.
  - intros Hnone. unfold setVersion. cbv zeta. fold sprint_lookup. fold (header_line version).
    rewrite (run_setVersion_start _ _ _ _ _ Hans Hvalues). fold activeSprint.
    replace (falsy activeSprint || falsy (prop activeSprint "id")) with true
      by (unfold falsy; destruct (truthy activeSprint); simpl in *; [now rewrite Hnone | reflexivity]).
    rewrite run_console_log. unfold logged; simpl. now rewrite <- app_assoc.
  - intros issues vs Hsome Hboard Hversions Hnames. unfold setVersion. cbv zeta.
    fold sprint_lookup. fold (header_line version).
    rewrite (run_setVersion_start _ _ _ _ _ Hans Hvalues). fold activeSprint.
    apply andb_true_iff in Hsome. destruct Hsome as [Hs Hid].
    replace (falsy activeSprint || falsy (prop activeSprint "id")) with false
      by (unfold falsy; now rewrite Hs, Hid).
    fold (board_lookup activeSprint). rewrite run_await. simpl calls.
    rewrite <- app_assoc. simpl app. rewrite Hboard.
    fold version_lookup. rewrite run_await. simpl calls.
    rewrite <- !app_assoc. simpl app. rewrite Hversions.
    change (VArr vs ||| VArr []) with (VArr vs).
    rewrite (findVersion_none _ _ Hnames).
    change (falsy VNull) with true. cbv iota.
    rewrite run_console_log. unfold sent, logged; simpl.
    now rewrite <- !app_assoc.
Qed.

Lemma not_eligible_not_nullish (issue : value) :
  eligible issue = false -> nullish issue = false.
Proof.
  unfold eligible, isIssueClosed, doesIssueHaveFixVersion, js_and, falsy.
  destruct issue; simpl; auto; discriminate.
Qed.

(** The issue loop from index [length pre] on: it has sent one update for each
    issue of [done], the eligible issues it came to, in their order, and
    nothing else; when it comes to its end, [done] is all of them, the count
    has grown by their number and every issue has its line. *)
Lemma run_updateIssues (versionObj : value) (pre post : list value) (count : Z) (w : world) :
  exists done rest,
    filter eligible post = done ++ rest
    /\ calls (snd (run jira (updateIssues (VArr (pre ++ post)) (VArr [versionObj])
                             (length pre) (length post) count) w))
       = calls w ++ map (update_of versionObj) done
    /\ (forall n,
          fst (run jira (updateIssues (VArr (pre ++ post)) (VArr [versionObj])
                           (length pre) (length post) count) w) = Fulfilled n ->
          rest = [] /\ n = (count + Z.of_nat (length done))%Z
          /\ console (snd (run jira (updateIssues (VArr (pre ++ post)) (VArr [versionObj])
                                      (length pre) (length post) count) w))
             = console w ++ map report post).
Proof.
  revert pre count w. induction post as [| issue post IH]; intros pre count w.
  - exists [], []. simpl. rewrite !app_nil_r.
    split; [reflexivity |]. split; [reflexivity |].
    intros n [= <-]. repeat split. lia.
  - cbn [length updateIssues]. rewrite index_middle. fold (eligible issue).
    rewrite snoc_cons, <- (length_snoc pre issue).
    cbn [filter map].
    assert (Hreport : report issue
                      = if eligible issue
                        then VStr (chalk [green] (tab +++ ToString (prop issue "key")))
                        else VStr (chalk [yellow]
                                     (tab +++ ToString (prop issue "key")
                                      +++ " already has a version or is closed")))
      by reflexivity.
    destruct (eligible issue) eqn:Hel.
    + destruct (nullish issue) eqn:Hnull.
      { exists [], (issue :: filter eligible post). unfold get. rewrite Hnull. simpl.
        rewrite app_nil_r. split; [reflexivity |]. split; [reflexivity |].
        intros n Hn; discriminate Hn. }
      rewrite run_get by assumption. rewrite run_await.
      fold (update_of versionObj issue).
      destruct (jira (calls w ++ [update_of versionObj issue]) (update_of versionObj issue))
        as [v | e].
      * rewrite run_get by assumption. rewrite run_console_log.
        destruct (IH (pre ++ [issue]) (count + 1)%Z
                     (logged (VStr (chalk [green] (tab +++ ToString (prop issue "key"))))
                        (sent (update_of versionObj issue) w)))
          as (done & rest & Hfilter & Hcalls & Hend).
        exists (issue :: done), rest. split; [simpl; now rewrite Hfilter |].
        split; [rewrite Hcalls; simpl; now rewrite <- app_assoc |].
        intros n Hn. destruct (Hend n Hn) as (Hrest & Hcount & Hconsole).
        split; [assumption |]. split; [simpl length; lia |].
        rewrite Hconsole, Hreport. simpl. now rewrite <- app_assoc.
      * exists [issue], (filter eligible post). simpl.
        split; [reflexivity |]. split; [reflexivity |]. intros n Hn; discriminate Hn.
    + rewrite run_get by (now apply not_eligible_not_nullish).
      rewrite run_console_log.
      destruct (IH (pre ++ [issue]) count
                   (logged (VStr (chalk [yellow]
                                    (tab +++ ToString (prop issue "key")
                                     +++ " already has a version or is closed"))) w))
        as (done & rest & Hfilter & Hcalls & Hend).
      exists done, rest. split; [assumption |]. split; [exact Hcalls |].
      intros n Hn. destruct (Hend n Hn) as (Hrest & Hcount & Hconsole).
      split; [assumption |]. split; [assumption |].
      rewrite Hconsole, Hreport. simpl. now rewrite <- app_assoc.
Qed.

(** A property that holds a string, an array or an object is the property of
    an object. *)
Lemma prop_of_object (v : value) (k : string) :
  match prop v k with
  | VStr _ | VArr _ | VObj _ => exists props, v = VObj props
  | _ => True
  end.
Proof.
  destruct v; simpl; auto.
  - destruct (k =? "length"); exact I.
  - destruct (k =? "length"); [exact I |]. destruct (k =? "values"); exact I.
  - destruct (own k props); eauto.
Qed.

(** A closed issue and an issue with a fix version are not eligible. *)
Lemma closed_not_eligible (issue : value) :
  status_of issue = VStr "Closed" -> eligible issue = false.
Proof.
  unfold status_of, path; simpl. intros Hname.
  pose proof (prop_of_object (prop (prop issue "fields") "status") "name") as H1.
  rewrite Hname in H1. destruct H1 as [ps1 H1].
  pose proof (prop_of_object (prop issue "fields") "status") as H2.
  rewrite H1 in H2. destruct H2 as [ps2 H2].
  pose proof (prop_of_object issue "fields") as H3.
  rewrite H2 in H3. destruct H3 as [ps3 H3].
  subst issue. rewrite H2 in H1. rewrite H2, H1 in Hname. simpl in H1, H2, Hname.
  unfold eligible, isIssueClosed, js_and, path; simpl.
  rewrite H2; simpl. rewrite H1; simpl. rewrite Hname. reflexivity.
Qed.

Lemma versioned_not_eligible (issue f : value) (fs : list value) :
  path issue ["fields"; "fixVersions"] = VArr (f :: fs) -> eligible issue = false.
Proof.
  unfold path; simpl. intros Hfix.
  pose proof (prop_of_object (prop issue "fields") "fixVersions") as H2.
  rewrite Hfix in H2. destruct H2 as [ps2 H2].
  pose proof (prop_of_object issue "fields") as H3.
  rewrite H2 in H3. destruct H3 as [ps3 H3].
  subst issue. rewrite H2 in Hfix. simpl in H2, Hfix.
  unfold eligible, doesIssueHaveFixVersion, js_and, path; simpl.
  rewrite H2; simpl. rewrite Hfix; simpl. apply andb_false_r.
Qed.

Lemma named_truthy (version : string) (v : value) : named version v = true -> truthy v = true.
Proof. unfold named, js_and. destruct (truthy v) eqn:Hv; [reflexivity |]. now rewrite Hv. Qed.

(** [setVersion] with its three lookups answered is its issue loop followed
    by the tally. *)
Lemma run_setVersion_loop (version : string) (sprintId sprints issues versionObj : value)
    (sps items vs : list value) (w : world) :
  jira (calls w ++ [sprint_lookup]) sprint_lookup = Fulfilled sprints ->
  prop sprints "values" = VArr sps ->
  let activeSprint := nth 0 sps VUndefined in
  truthy activeSprint && truthy (prop activeSprint "id") = true ->
  jira (calls w ++ [sprint_lookup; board_lookup activeSprint])
       (board_lookup activeSprint) = Fulfilled issues ->
  prop issues "issues" = VArr items ->
  jira (calls w ++ [sprint_lookup; board_lookup activeSprint; version_lookup])
       version_lookup = Fulfilled (VArr vs) ->
  find (named version) vs = Some versionObj ->
  run jira (setVersion version sprintId) w
  = match run jira (updateIssues (VArr items) (VArr [versionObj]) 0 (length items) 0)
            {| calls := calls w ++ [sprint_lookup; board_lookup activeSprint; version_lookup];
               console := console w ++ [header_line version] |}
    with
    | (Fulfilled n, w') =>
        (Fulfilled VUndefined,
         logged (VStr (chalk [bold; underline; green]
                         (nl +++ "Updated " +++ NumberToString n +++ " issues out of "
                          +++ NumberToString (Z.of_nat (length items))
                          +++ " total issues." +++ nl))) w')
    | (Rejected e, w') => (Rejected e, w')
    end.
Proof.
  intros Hans Hvalues activeSprint Hsome Hboard Hitems Hversions Hfind.
  unfold setVersion. cbv zeta. fold sprint_lookup. fold (header_line version).
  rewrite (run_setVersion_start _ _ _ _ _ Hans Hvalues). fold activeSprint.
  apply andb_true_iff in Hsome. destruct Hsome as [Hs Hid].
  replace (falsy activeSprint || falsy (prop activeSprint "id")) with false
    by (unfold falsy; now rewrite Hs, Hid).
  fold (board_lookup activeSprint). rewrite run_await. simpl calls.
  rewrite <- app_assoc. simpl app. rewrite Hboard.
  fold version_lookup. rewrite run_await. simpl calls.
  rewrite <- !app_assoc. simpl app. rewrite Hversions.
  change (VArr vs ||| VArr []) with (VArr vs). rewrite iterations_length.
  change (findVersion (VArr vs) version 0 (length vs))
    with (findVersion (VArr ([] ++ vs)) version (length (@nil value)) (length vs)).
  rewrite findVersion_first, Hfind.
  assert (Hv : truthy versionObj = true).
  { apply find_some in Hfind. eapply named_truthy. apply Hfind. }
  replace (falsy versionObj) with false by (unfold falsy; now rewrite Hv).
  rewrite run_get by (eapply has_array_not_nullish; eauto). rewrite Hitems.
  change (VArr items ||| VArr []) with (VArr items). rewrite iterations_length.
  rewrite run_bind. unfold sent; simpl calls; simpl console.
  rewrite <- !app_assoc. simpl app.
  destruct (run jira (updateIssues _ _ _ _ _) _) as [[n | e] w']; reflexivity.
Qed.

(** The issue loop from index [length pre] on, in full: it goes through the
    issues [seen], sending one update for each of them that passes the test
    and writing one line for each, and then either comes to its end, or stops
    at an entry it cannot read, or stops at an update the tracker rejects. *)
Lemma run_updateIssues_stops (versionObj : value) (pre post : list value) (count : Z)
    (w : world) :
  exists seen unseen,
    post = seen ++ unseen
    /\ ((unseen = []
         /\ run jira (updateIssues (VArr (pre ++ post)) (VArr [versionObj])
                        (length pre) (length post) count) w
            = (Fulfilled (count + Z.of_nat (length (filter eligible seen)))%Z,
               {| calls := calls w ++ map (update_of versionObj) (filter eligible seen);
                  console := console w ++ map report seen |}))
        \/ (exists bad rest,
               unseen = bad :: rest /\ eligible bad = true /\ nullish bad = true
               /\ run jira (updateIssues (VArr (pre ++ post)) (VArr [versionObj])
                              (length pre) (length post) count) w
                  = (Rejected TypeError,
                     {| calls := calls w ++ map (update_of versionObj) (filter eligible seen);
                        console := console w ++ map report seen |}))
        \/ (exists bad rest e,
               unseen = bad :: rest /\ eligible bad = true /\ nullish bad = false
               /\ jira (calls w ++ map (update_of versionObj) (filter eligible seen)
                          ++ [update_of versionObj bad])
                       (update_of versionObj bad) = Rejected e
               /\ run jira (updateIssues (VArr (pre ++ post)) (VArr [versionObj])
                              (length pre) (length post) count) w
                  = (Rejected e,
                     {| calls := calls w ++ map (update_of versionObj) (filter eligible seen)
                                   ++ [update_of versionObj bad];
                        console := console w ++ map report seen |}))).
Proof.
  revert pre count w. induction post as [| issue post IH]; intros pre count w.
  - exists [], []. split; [reflexivity |]. left. split; [reflexivity |].
    simpl. rewrite !app_nil_r, Z.add_0_r. now destruct w.
  - cbn [length updateIssues]. rewrite index_middle. fold (eligible issue).
    rewrite snoc_cons, <- (length_snoc pre issue).
    assert (Hreport : report issue
                      = if eligible issue
                        then VStr (chalk [green] (tab +++ ToString (prop issue "key")))
                        else VStr (chalk [yellow]
                                     (tab +++ ToString (prop issue "key")
                                      +++ " already has a version or is closed")))
      by reflexivity.
    destruct (eligible issue) eqn:Hel.
    + destruct (nullish issue) eqn:Hnull.
      { exists [], (issue :: post). split; [reflexivity |]. right. left.
        exists issue, post. repeat split; auto.
        unfold get. rewrite Hnull. simpl. rewrite !app_nil_r. now destruct w. }
      rewrite run_get by assumption. rewrite run_await.
      fold (update_of versionObj issue).
      destruct (jira (calls w ++ [update_of versionObj issue]) (update_of versionObj issue))
        as [v | e] eqn:Hans.
      * rewrite run_get by assumption. rewrite run_console_log.
        destruct (IH (pre ++ [issue]) (count + 1)%Z
                     (logged (VStr (chalk [green] (tab +++ ToString (prop issue "key"))))
                        (sent (update_of versionObj issue) w)))
          as (seen & unseen & Hpost & Hend).
        exists (issue :: seen), unseen. split; [simpl; now rewrite Hpost |].
        cbn [filter]. rewrite Hel. cbn [map length]. rewrite Hreport.
        set (body := updateIssues _ _ _ _ _) in *.
        unfold logged, sent in Hend |- *. cbn [calls console] in Hend |- *.
        rewrite <- !app_assoc in Hend. cbn [app] in Hend.
        destruct Hend as [[Hnil Hrun] | [(bad & rest & Hu & Hb & Hn & Hrun)
                                        | (bad & rest & e & Hu & Hb & Hn & Hrej & Hrun)]].
        -- left. split; [assumption |]. rewrite Hrun. f_equal. f_equal. lia.
        -- right. left. exists bad, rest. repeat split; assumption.
        -- right. right. exists bad, rest, e. cbn [app].
           rewrite <- app_assoc in Hrej, Hrun. cbn [app] in Hrej, Hrun.
           repeat split; assumption.
      * exists [], (issue :: post). split; [reflexivity |]. right. right.
        exists issue, post, e. cbn [filter map app]. rewrite !app_nil_r.
        repeat split; auto.
    + rewrite run_get by (now apply not_eligible_not_nullish).
      rewrite run_console_log.
      destruct (IH (pre ++ [issue]) count
                   (logged (VStr (chalk [yellow]
                                    (tab +++ ToString (prop issue "key")
                                     +++ " already has a version or is closed"))) w))
        as (seen & unseen & Hpost & Hend).
      exists (issue :: seen), unseen. split; [simpl; now rewrite Hpost |].
      cbn [filter]. rewrite Hel. cbn [map]. rewrite Hreport.
      set (body := updateIssues _ _ _ _ _) in *.
      unfold logged in Hend |- *. cbn [calls console] in Hend |- *.
      rewrite <- !app_assoc in Hend. cbn [app] in Hend.
      exact Hend.
Qed.

(** C5. With its three lookups answered (an active sprint, the issues of the
    sprint, the versions of the project with the target among them),
    [setVersion] goes through the issues of the sprint in their order.  For
    each issue [seen] it writes one line, and it sends one update for each of
    them that is neither closed nor versioned, and no other request.  An
    issue that is already Closed or already has one or more fix versions
    fails that test: it is not passed to the update, and its line is the
    "already has a version or is closed" line.  The handler stops before its
    end only at an entry of the sprint it cannot read or at an update the
    tracker rejects; otherwise it has seen every issue, is fulfilled, and its
    last line is "Updated {updatedCount} issues out of {issueCount} total
    issues." with [updatedCount] the number of updates sent and [issueCount]
    the number of issues fetched for the sprint.  So it is with a sprint
    without a [null] entry on a tracker that accepts the updates. *)
Theorem setVersion_tally (version : string) (sprintId sprints issues versionObj : value)
    (sps items vs : list value) (w : world) :
  jira (calls w ++ [sprint_lookup]) sprint_lookup = Fulfilled sprints ->
  prop sprints "values" = VArr sps ->
  let activeSprint := nth 0 sps VUndefined in
  truthy activeSprint && truthy (prop activeSprint "id") = true ->
  jira (calls w ++ [sprint_lookup; board_lookup activeSprint])
       (board_lookup activeSprint) = Fulfilled issues ->
  prop issues "issues" = VArr items ->
  jira (calls w ++ [sprint_lookup; board_lookup activeSprint; version_lookup])
       version_lookup = Fulfilled (VArr vs) ->
  find (named version) vs = Some versionObj ->
  (forall issue,
      status_of issue = VStr "Closed"
      \/ (exists f fs, path issue ["fields"; "fixVersions"] = VArr (f :: fs)) ->
      eligible issue = false
      /\ report issue
         = VStr (chalk [yellow] (tab +++ ToString (prop issue "key")
                                 +++ " already has a version or is closed")))
  /\ (exists seen unseen,
       items = seen ++ unseen
       /\ let updated := filter eligible seen in
          let requests := calls w ++ [sprint_lookup; board_lookup activeSprint; version_lookup]
                            ++ map (update_of versionObj) updated in
          let lines := console w ++ [header_line version] ++ map report seen in
          (unseen = []
           /\ run jira (setVersion version sprintId) w
              = (Fulfilled VUndefined,
                 {| calls := requests;
                    console := lines ++ [tally_line (length updated) (length items)] |}))
          \/ (exists bad rest,
                 unseen = bad :: rest /\ eligible bad = true /\ nullish bad = true
                 /\ run jira (setVersion version sprintId) w
                    = (Rejected TypeError, {| calls := requests; console := lines |}))
          \/ (exists bad rest e,
                 unseen = bad :: rest /\ eligible bad = true /\ nullish bad = false
                 /\ jira (requests ++ [update_of versionObj bad]) (update_of versionObj bad)
                    = Rejected e
                 /\ run jira (setVersion version sprintId) w
                    = (Rejected e,
                       {| calls := requests ++ [update_of versionObj bad];
                          console := lines |})))
  /\ (Forall (fun i => nullish i = false) items ->
      (forall history i, In i items -> eligible i = true ->
         exists v, jira history (update_of versionObj i) = Fulfilled v) ->
      run jira (setVersion version sprintId) w
      = (Fulfilled VUndefined,
         {| calls := calls w ++ [sprint_lookup; board_lookup activeSprint; version_lookup]
                       ++ map (update_of versionObj) (filter eligible items);
            console := console w ++ [header_line version] ++ map report items
                         ++ [tally_line (length (filter eligible items)) (length items)] |})).
Proof.
  intros Hans Hvalues activeSprint Hsome Hboard Hitems Hversions Hfind.
  split.
  { intros issue Hissue.
    assert (Hel : eligible issue = false).
    { destruct Hissue as [Hc | (f & fs & Hf)];
        [now apply closed_not_eligible | now apply versioned_not_eligible with f fs]. }
    split; [assumption | unfold report; now rewrite Hel]. }
  assert (Hmain :
    exists seen unseen,
      items = seen ++ unseen
      /\ ((unseen = []
           /\ run jira (setVersion version sprintId) w
              = (Fulfilled VUndefined,
                 {| calls := calls w
                               ++ [sprint_lookup; board_lookup activeSprint; version_lookup]
                               ++ map (update_of versionObj) (filter eligible seen);
                    console := (console w ++ [header_line version] ++ map report seen)
                               ++ [tally_line (length (filter eligible seen))
                                     (length items)] |}))
          \/ (exists bad rest,
                 unseen = bad :: rest /\ eligible bad = true /\ nullish bad = true
                 /\ run jira (setVersion version sprintId) w
                    = (Rejected TypeError,
                       {| calls := calls w
                                     ++ [sprint_lookup; board_lookup activeSprint;
                                         version_lookup]
                                     ++ map (update_of versionObj) (filter eligible seen);
                          console := console w ++ [header_line version]
                                       ++ map report seen |}))
          \/ (exists bad rest e,
                 unseen = bad :: rest /\ eligible bad = true /\ nullish bad = false
                 /\ jira ((calls w
                            ++ [sprint_lookup; board_lookup activeSprint; version_lookup]
                            ++ map (update_of versionObj) (filter eligible seen))
                           ++ [update_of versionObj bad]) (update_of versionObj bad)
                    = Rejected e
                 /\ run jira (setVersion version sprintId) w
                    = (Rejected e,
                       {| calls := (calls w
                                      ++ [sprint_lookup; board_lookup activeSprint;
                                          version_lookup]
                                      ++ map (update_of versionObj) (filter eligible seen))
                                     ++ [update_of versionObj bad];
                          console := console w ++ [header_line version]
                                       ++ map report seen |})))).
  { rewrite (run_setVersion_loop version sprintId sprints issues versionObj sps items vs w)
      by assumption.
    fold activeSprint.
    destruct (run_updateIssues_stops versionObj [] items 0
                {| calls := calls w
                              ++ [sprint_lookup; board_lookup activeSprint; version_lookup];
                   console := console w ++ [header_line version] |})
      as (seen & unseen & Hsplit & Hend).
    cbn [app length calls console] in Hend.
    exists seen, unseen. split; [exact Hsplit |].
    destruct Hend as [[Hnil Hrun] | [(bad & rest & Hu & Hb & Hn & Hrun)
                                    | (bad & rest & e & Hu & Hb & Hn & Hrej & Hrun)]].
    - left. split; [assumption |]. rewrite Hrun. unfold logged, tally_line.
      cbn [calls console]. rewrite Z.add_0_l. now rewrite <- !app_assoc.
    - right. left. exists bad, rest. rewrite Hrun. rewrite <- !app_assoc.
      repeat split; assumption.
    - right. right. exists bad, rest, e. rewrite Hrun.
      rewrite <- !app_assoc in Hrej. rewrite <- !app_assoc. repeat split; assumption. }
  split; [exact Hmain |].
  intros Hall Hacc.
  destruct Hmain as (seen & unseen & Hsplit & Hend).
  destruct Hend as [[Hnil Hrun] | [(bad & rest & Hu & _ & Hn & _)
                                  | (bad & rest & e & Hu & Hb & _ & Hrej & _)]].
  - subst unseen. rewrite app_nil_r in Hsplit. subst seen. rewrite Hrun.
    now rewrite <- !app_assoc.
  - assert (Hin : In bad items) by (rewrite Hsplit, Hu; apply in_or_app; right; now left).
    rewrite Forall_forall in Hall. rewrite (Hall bad Hin) in Hn. discriminate Hn.
  - assert (Hin : In bad items) by (rewrite Hsplit, Hu; apply in_or_app; right; now left).
    match type of Hrej with jira ?h _ = _ => destruct (Hacc h bad Hin Hb) as [v Hv] end.
    rewrite Hv in Hrej. discriminate Hrej.
Qed.

End SetVersion.

Lemma setVersion_lookup_failures_witness :
  run idle_board (setVersion (host := plain_host) "1.0" VUndefined) empty_world
  = (Fulfilled VNull,
     {| calls := [sprint_lookup];
        console := [VStr (nl +++ "Setting fix version to: 1.0" +++ nl);
                    VStr "Active sprint not found"] |}).
Proof.
  refine (proj1 (setVersion_lookup_failures (host := plain_host) idle_board "1.0" VUndefined
                   (VObj [("values", VArr [])]) [] empty_world _ _) _); reflexivity.
Defined.

(** The other lookup failure, on the board of the examples: no version is
    named "2.0". *)
Example setVersion_unknown_version :
  run board (setVersion (host := plain_host) "2.0" VUndefined) empty_world
  = (Fulfilled VNull,
     {| calls := [sprint_lookup; board_lookup active_sprint; version_lookup];
        console := [VStr (nl +++ "Setting fix version to: 2.0" +++ nl);
                    VStr ("Version " +++ dquote +++ "2.0" +++ dquote +++ " not found")] |}).
Proof. reflexivity. Qed.

Lemma setVersion_tally_witness :
  run board (setVersion (host := plain_host) "1.0" VUndefined) empty_world
  = (Fulfilled VUndefined,
     {| calls := [sprint_lookup; board_lookup active_sprint; version_lookup;
                  update_of version_1_0 (sprint_issue "101" "CV-1" "Open" []);
                  update_of version_1_0 (sprint_issue "104" "CV-4" "Resolved" [])];
        console := [VStr (nl +++ "Setting fix version to: 1.0" +++ nl);
                    VStr (tab +++ "CV-1");
                    VStr (tab +++ "CV-2 already has a version or is closed");
                    VStr (tab +++ "CV-3 already has a version or is closed");
                    VStr (tab +++ "CV-4");
                    VStr (nl +++ "Updated 2 issues out of 4 total issues." +++ nl)] |}).
Proof.
  destruct (setVersion_tally (host := plain_host) board "1.0" VUndefined
              (VObj [("values", VArr [active_sprint])])
              (VObj [("issues", VArr sprint_issues)]) version_1_0
              [active_sprint] sprint_issues
              [VObj [("id", VStr "6"); ("name", VStr "0.9")]; version_1_0] empty_world
              eq_refl eq_refl eq_refl eq_refl eq_refl eq_refl eq_refl)
    as (_ & (seen & unseen & Hsplit & Hend) & _).
  cbv zeta in Hend.
  destruct Hend as [[Hnil Hrun] | [(bad & rest & Hu & _ & Hn & _)
                                  | (bad & rest & e & _ & _ & _ & Hrej & _)]].
  - subst unseen. rewrite app_nil_r in Hsplit. subst seen. exact Hrun.
  - assert (Hin : In bad sprint_issues)
      by (rewrite Hsplit, Hu; apply in_or_app; right; now left).
    destruct Hin as [<- | [<- | [<- | [<- | []]]]]; discriminate Hn.
  - discriminate Hrej.
Defined.

(** The run of the examples in full: of the four issues of the sprint the
    first and the last are updated, and the tally says so. *)
Example setVersion_on_board :
  run board (setVersion (host := plain_host) "1.0" VUndefined) empty_world
  = (Fulfilled VUndefined,
     {| calls := [sprint_lookup; board_lookup active_sprint; version_lookup;
                  update_of version_1_0 (sprint_issue "101" "CV-1" "Open" []);
                  update_of version_1_0 (sprint_issue "104" "CV-4" "Resolved" [])];
        console := [VStr (nl +++ "Setting fix version to: 1.0" +++ nl);
                    VStr (tab +++ "CV-1");
                    VStr (tab +++ "CV-2 already has a version or is closed");
                    VStr (tab +++ "CV-3 already has a version or is closed");
                    VStr (tab +++ "CV-4");
                    VStr (nl +++ "Updated 2 issues out of 4 total issues." +++ nl)] |}).
Proof. reflexivity. Qed.

(* ===================================================================== *)
(** ** Failures of the tracker *)
(* ===================================================================== *)

Section Failures.
Context {host : Host}.
Variable jira : tracker.

Lemma run_handleError {A : Type} (e : value) (f : unit -> prog A) (w : world) :
  run jira (bind (handleError e) f) w = run jira (f tt) (snd (run jira (handleError e) w)).
Proof. reflexivity. Qed.















End Failures.



(* ===================================================================== *)
(** ** Records the handlers do not expect *)
(* ===================================================================== *)

(** C8: the defect.  A record without a status is skipped by [closeIssue],
    which returns [undefined] without a request; the close command then
    writes that [undefined] as a line of its own, after the line of the
    closed issue. *)
Theorem closeIssues_prints_undefined_for_skipped :
  closeIssue (host := plain_host) statusless_issue = Ret VUndefined
  /\ closeIssues (host := plain_host) statusless "1.0" [] empty_world
     = (Fulfilled VUndefined,
        {| calls := [searchJira (VStr "fixVersion=1.0")];
           console := [VStr "P-2 - s"; VStr "P-8 - s";
                       VStr "P-2 - Issue already Closed"; VUndefined] |}).
Proof. split; reflexivity. Qed.

(** C9: the defect.  An issue whose issue type is [null] is not placed in
    [other]: reading the name of its type throws, and the release notes are
    rejected with that [TypeError] for all the issues of the version. *)
Theorem generateReleaseNotes_throws_on_null_issuetype :
  run untyped (generateReleaseNotes (host := plain_host) "1.0") empty_world
  = (Rejected TypeError,
     {| calls := [searchJira (VStr "fixVersion=1.0")];
        console := [VStr "P-1 - s"; VStr "P-9 - s"] |}).
Proof. reflexivity. Qed.

(* ===================================================================== *)
(** ** Further properties *)
(* ===================================================================== *)

Lemma residual_Ret_inv {A : Type} (a : A) (q : prog A) : residual (Ret a) q -> q = Ret a.
Proof. intros H. inversion H. reflexivity. Qed.

Lemma residual_Throw_inv {A : Type} (e : value) (q : prog A) :
  residual (Throw e) q -> q = Throw e.
Proof. intros H. inversion H. reflexivity. Qed.

Lemma residual_Await_inv {A : Type} (c : call) (k : outcome value -> prog A) (q : prog A) :
  residual (Await c k) q -> q = Await c k \/ exists r, residual (k r) q.
Proof. intros H. inversion H; subst; eauto. Qed.

Section ResultLines.
Context {host : Host}.

(** The search for the transition sends nothing: it ends at once, with the
    transition found, with [undefined], or with the error of a read through a
    missing entry. *)
Lemma find_first_ends_at_once (ts : list value) :
  (exists t, find_first (fun t => name <- get t "name";;
                                  Ret (strict_eq_string name "Close Issue")) ts = Ret t)
  \/ (exists e, find_first (fun t => name <- get t "name";;
                                     Ret (strict_eq_string name "Close Issue")) ts = Throw e).
Proof.
  induction ts as [| t ts IH]; simpl; [eauto |].
  unfold get. destruct (nullish t); simpl; [eauto |].
  destruct (strict_eq_string (prop t "name") "Close Issue"); eauto.
Qed.

(** X1. What [closeIssue] can return for an issue: [undefined] for a record it
    skips, or one of its four lines, each starting with the key of that
    issue. *)
Theorem closeIssue_result_is_a_line_of_the_issue (issue v : value) :
  returns (closeIssue issue) v ->
  v = VUndefined
  \/ exists text,
       v = VStr (ToString (prop issue "key") +++ " - " +++ text)
       /\ In text [chalk [yellow] "Issue already Closed";
                   chalk [red] "Issue not Resolved yet, can't be closed";
                   chalk [green] "Closed";
                   chalk [red] "Close Transition not available, reason unknown..."].
Proof.
  unfold returns, closeIssue.
  destruct (falsy issue || _ || _ || _).
  { intros H. apply residual_Ret_inv in H. injection H as ->. now left. }
  destruct (strict_eq_string _ "Closed").
  { intros H. apply residual_Ret_inv in H. injection H as ->.
    right. eexists. split; [reflexivity | simpl; auto]. }
  destruct (negb _).
  { intros H. apply residual_Ret_inv in H. injection H as ->.
    right. eexists. split; [reflexivity | simpl; auto]. }
  assert (Hrest : forall transitions,
    residual
      (closeTransition <-
         (if truthy transitions
          then find_array (prop transitions "transitions")
                 (fun t => name <- get t "name";; Ret (strict_eq_string name "Close Issue"))
          else Ret transitions);;
       (if truthy (closeTransition &&& prop closeTransition "id") then
          await (transitionIssue (prop issue "key")
                   (VObj [("transition", prop closeTransition "id")]));;
          Ret (VStr (ToString (prop issue "key") +++ " - " +++ chalk [green] "Closed"))
        else
          Ret (VStr (ToString (prop issue "key") +++ " - "
                     +++ chalk [red] "Close Transition not available, reason unknown..."))))
      (Ret v) ->
    exists text,
      v = VStr (ToString (prop issue "key") +++ " - " +++ text)
      /\ In text [chalk [yellow] "Issue already Closed";
                  chalk [red] "Issue not Resolved yet, can't be closed";
                  chalk [green] "Closed";
                  chalk [red] "Close Transition not available, reason unknown..."]).
  { intros transitions.
    assert (Hfound :
      (exists t, (if truthy transitions
                  then find_array (prop transitions "transitions")
                         (fun t => name <- get t "name";;
                                   Ret (strict_eq_string name "Close Issue"))
                  else Ret transitions) = Ret t)
      \/ (exists e, (if truthy transitions
                     then find_array (prop transitions "transitions")
                            (fun t => name <- get t "name";;
                                      Ret (strict_eq_string name "Close Issue"))
                     else Ret transitions) = Throw e)).
    { destruct (truthy transitions); [| eauto].
      unfold find_array. destruct (prop transitions "transitions"); eauto.
      apply find_first_ends_at_once. }
    destruct Hfound as [[t ->] | [e ->]]; simpl.
    - destruct (truthy (t &&& prop t "id")).
      + intros H. apply residual_Await_inv in H. destruct H as [H | [r H]]; [discriminate |].
        destruct r; simpl in H.
        * apply residual_Ret_inv in H. injection H as ->.
          eexists. split; [reflexivity | simpl; auto].
        * apply residual_Throw_inv in H. discriminate.
      + intros H. apply residual_Ret_inv in H. injection H as ->.
        eexists. split; [reflexivity | simpl; auto].
    - intros H. apply residual_Throw_inv in H. discriminate. }
  unfold getTransitions. destruct (falsy (prop issue "key")).
  - intros H. right. apply (Hrest VNull). exact H.
  - intros H. simpl in H. apply residual_Await_inv in H.
    destruct H as [H | [r H]]; [discriminate |].
    destruct r as [transitions | e]; simpl in H.
    + right. apply (Hrest transitions). exact H.
    + apply residual_Throw_inv in H. discriminate.
Qed.

(** X2. The version loop of [setVersion] returns the first entry of the array
    that passes its test, [null] when none does; for an entry whose name is a
    string the test is equality with the target, letter case included. *)
Theorem findVersion_first_match_wins (version : string) (vs : list value) :
  findVersion (VArr vs) version 0 (iterations (prop (VArr vs) "length"))
  = match find (named version) vs with Some v => v | None => VNull end
  /\ (forall props s,
        own "name" props = VStr s ->
        (named version (VObj props) = true <-> s = version)).
Proof.
  split.
  - rewrite iterations_length.
    change (findVersion (VArr vs) version 0 (length vs))
      with (findVersion (VArr ([] ++ vs)) version (length (@nil value)) (length vs)).
    apply findVersion_first.
  - intros props s Hname. unfold named, js_and. simpl. rewrite Hname. simpl.
    apply String.eqb_eq.
Qed.

End ResultLines.

Lemma closeIssue_result_is_a_line_of_the_issue_witness :
  VStr "P-2 - Issue already Closed" = VUndefined
  \/ exists text,
       VStr "P-2 - Issue already Closed" = VStr ("P-2" +++ " - " +++ text)
       /\ In text ["Issue already Closed"; "Issue not Resolved yet, can't be closed";
                   "Closed"; "Close Transition not available, reason unknown..."].
Proof.
  apply (closeIssue_result_is_a_line_of_the_issue (host := plain_host)
           (an_issue "P-2" "Closed" "Bug")).
  apply residual_refl.
Defined.

(* ===================================================================== *)
(** ** The error message and the issue query, further *)
(* ===================================================================== *)

Lemma offline_bind {A B : Type} (p : prog A) (f : A -> prog B) :
  offline p -> (forall a, offline (f a)) -> offline (bind p f).
Proof. induction p as [a | e | c k IH | line k IH]; simpl; intros Hp Hf; auto. Qed.

Lemma offline_try_catch {A : Type} (p : prog A) (h : value -> prog A) :
  offline p -> (forall e, offline (h e)) -> offline (try_catch p h).
Proof. induction p as [a | e | c k IH | line k IH]; simpl; intros Hp Hh; auto. Qed.

Lemma offline_each {A : Type} (f : A -> prog unit) (l : list A) :
  (forall x, offline (f x)) -> offline (each f l).
Proof.
  intros Hf. induction l as [| x l IH]; simpl; [exact I |].
  apply offline_bind; auto.
Qed.

Lemma offline_get (v : value) (k : string) : offline (get v k).
Proof. unfold get. destruct (nullish v); exact I. Qed.

Lemma run_offline (jira : tracker) {A : Type} (p : prog A) (w : world) :
  offline p -> calls (snd (run jira p w)) = calls w.
Proof.
  revert w. induction p as [a | e | c k IH | line k IH]; simpl; intros w Hp; auto.
  - contradiction.
  - now rewrite IH.
Qed.

Section QueryFacts.
Context {host : Host}.
Variable jira : tracker.

Lemma handleError_offline (e : value) : offline (handleError e).
Proof. exact I. Qed.

Lemma falsy_query (query : string) : falsy (VStr query) = (query =? "").
Proof. unfold falsy; simpl. now rewrite negb_involutive. Qed.

(** X3. [handleError] writes one line and nothing else.  When the error
    carries a non-empty array of messages under [error.errorMessages], the
    line is the generic message followed by a tab, the first message and a
    line feed; when it carries no [error], no messages or an empty array, the
    line is the generic message alone.  Either way the line is red. *)
Theorem handleError_best_effort (e : value) (w : world) :
  (forall m ms,
      path e ["error"; "errorMessages"] = VArr (m :: ms) ->
      run jira (handleError e) w
      = (Fulfilled tt,
         logged (VStr (chalk [red] (generic_message +++ tab +++ ToString m +++ nl))) w))
  /\ (truthy (prop e "error") = false
      \/ truthy (path e ["error"; "errorMessages"]) = false
      \/ path e ["error"; "errorMessages"] = VArr [] ->
      run jira (handleError e) w = (Fulfilled tt, logged (VStr (chalk [red] generic_message)) w)).
Proof.
  split.
  - intros m ms Hm. unfold path in Hm; simpl in Hm.
    pose proof (prop_of_object (prop e "error") "errorMessages") as H1.
    rewrite Hm in H1. destruct H1 as [ps1 H1].
    pose proof (prop_of_object e "error") as H2.
    rewrite H1 in H2. destruct H2 as [ps2 H2].
    unfold handleError, js_and, path; simpl fold_left.
    subst e. rewrite H1 in *. simpl truthy. cbv iota.
    simpl in Hm. simpl prop. rewrite Hm. reflexivity.
  - intros Hnone. unfold handleError, js_and, path in *; simpl fold_left in *.
    assert (Hcond : truthy
              (if truthy (if truthy (if truthy e then prop e "error" else e)
                          then prop (prop e "error") "errorMessages"
                          else if truthy e then prop e "error" else e)
               then prop (prop (prop e "error") "errorMessages") "length"
               else if truthy (if truthy e then prop e "error" else e)
                    then prop (prop e "error") "errorMessages"
                    else if truthy e then prop e "error" else e) = false).
    { destruct (truthy e) eqn:He; [| now rewrite He, He].
      destruct Hnone as [Herr | [Hmsgs | Hempty]].
      - now rewrite Herr, Herr.
      - destruct (truthy (prop e "error")) eqn:Herr; [now rewrite Hmsgs | now rewrite Herr].
      - destruct (truthy (prop e "error")) eqn:Herr; [| now rewrite Herr].
        rewrite Hempty. reflexivity. }
    rewrite Hcond. reflexivity.
Qed.

(** X4. [search] never rejects and sends at most one request: none for an
    empty query, and otherwise the one query, whatever the tracker answers
    and whatever the records of the answer look like. *)
Theorem search_at_most_one_request (query : string) (w : world) :
  (exists v, fst (run jira (search query) w) = Fulfilled v)
  /\ calls (snd (run jira (search query) w))
     = calls w ++ (if query =? "" then [] else [searchJira (VStr query)]).
Proof.
  split; [apply search_never_rejects |].
  unfold search. rewrite falsy_query. destruct (query =? "").
  - simpl. now rewrite app_nil_r.
  - cbn [try_catch bind await run].
    rewrite run_offline; [reflexivity |].
    apply offline_try_catch; [| intros e; exact I].
    destruct (jira _ _) as [results | e]; [| exact I].
    cbn [bind]. apply offline_bind; [| intros; exact I].
    unfold forEach. destruct (if truthy (results &&& prop results "issues")
                              then prop results "issues" else VArr []); try exact I.
    apply offline_each. intros i.
    apply offline_bind; [apply offline_get |]. intros key.
    apply offline_bind; [apply offline_get |]. intros fields.
    apply offline_bind; [apply offline_get |]. intros summary. exact I.
Qed.

(** X5. What [search] makes of the answer to a non-empty query.  When the
    answer holds an array of issues, each with its fields, [search] writes
    "{key} - {summary}" for each and returns the array, in the order of the
    answer.  When the answer is empty or holds nothing under [issues],
    [search] writes nothing and returns the empty array. *)
Theorem search_returns_the_answer (query : string) (results : value) (w : world) :
  query <> "" ->
  jira (calls w ++ [searchJira (VStr query)]) (searchJira (VStr query)) = Fulfilled results ->
  (forall items,
      prop results "issues" = VArr items -> Forall printable items ->
      run jira (search query) w
      = (Fulfilled (VArr items),
         {| calls := calls w ++ [searchJira (VStr query)];
            console := console w ++ map found_line items |}))
  /\ (truthy (results &&& prop results "issues") = false ->
      run jira (search query) w
      = (Fulfilled (VArr []),
         {| calls := calls w ++ [searchJira (VStr query)]; console := console w |})).
Proof.
  intros Hq Hans. split.
  - intros items Hitems Hall. now apply search_found with (results := results).
  - intros Hnone. unfold search. rewrite falsy_query.
    apply String.eqb_neq in Hq. rewrite Hq, run_try_catch, run_await, Hans, Hnone.
    reflexivity.
Qed.

Lemma run_print_until_malformed {A : Type} (pre post : list value) (bad : value)
    (k : prog A) (w : world) :
  Forall printable pre ->
  nullish bad = true \/ nullish (prop bad "fields") = true ->
  run jira
    (each (fun i =>
             key <- get i "key";;
             fields <- get i "fields";;
             summary <- get fields "summary";;
             console_log (VStr (ToString key +++ " - " +++ ToString summary)))
          (pre ++ bad :: post);; k) w
  = (Rejected TypeError,
     {| calls := calls w; console := console w ++ map found_line pre |}).
Proof.
  intros Hpre Hbad. revert w. induction Hpre as [| i pre [Hi Hf] _ IH]; intros w.
  - simpl. rewrite app_nil_r. unfold get.
    destruct (nullish bad) eqn:Hn; simpl; [now destruct w |].
    destruct Hbad as [Hbad | Hbad]; [discriminate |]. rewrite Hbad. simpl. now destruct w.
  - simpl. unfold get at 1 2 3. rewrite Hi. simpl. rewrite Hf. simpl. rewrite IH.
    unfold logged, found_line; simpl. now rewrite <- app_assoc.
Qed.

(** X6. One malformed record spoils the whole query: when the array of the
    answer holds an entry that is [null] or has no fields, [search] writes
    the lines of the issues before that entry, then the generic message of
    [handleError], and returns [undefined] in place of the issues. *)
Theorem search_malformed_record (query : string) (results bad : value)
    (pre post : list value) (w : world) :
  query <> "" ->
  jira (calls w ++ [searchJira (VStr query)]) (searchJira (VStr query)) = Fulfilled results ->
  prop results "issues" = VArr (pre ++ bad :: post) ->
  Forall printable pre ->
  nullish bad = true \/ nullish (prop bad "fields") = true ->
  run jira (search query) w
  = (Fulfilled VUndefined,
     {| calls := calls w ++ [searchJira (VStr query)];
        console := console w ++ map found_line pre ++ [VStr (chalk [red] generic_message)] |}).
Proof.
  intros Hq Hans Hissues Hpre Hbad. unfold search. rewrite falsy_query.
  apply String.eqb_neq in Hq. rewrite Hq, run_try_catch, run_await, Hans.
  unfold js_and. rewrite (has_issues_truthy _ _ Hissues), Hissues. simpl truthy. cbv iota.
  unfold forEach. rewrite run_print_until_malformed by assumption.
  cbn [handleError console_log bind run]. cbv [logged calls console].
  now rewrite <- app_assoc.
Qed.

End QueryFacts.

Lemma handleError_best_effort_witness :
  run down (handleError (host := plain_host) unreachable) empty_world
  = (Fulfilled tt,
     logged (VStr (generic_message +++ tab +++ "Service Unavailable" +++ nl)) empty_world).
Proof.
  exact (proj1 (handleError_best_effort (host := plain_host) down unreachable empty_world)
           (VStr "Service Unavailable") [] eq_refl).
Defined.

Lemma search_returns_the_answer_witness :
  run willing (search (host := plain_host) "project = P") empty_world
  = (Fulfilled (VArr three_issues),
     {| calls := [searchJira (VStr "project = P")];
        console := [VStr "P-1 - s"; VStr "P-2 - s"; VStr "P-3 - s"] |}).
Proof.
  refine (proj1 (search_returns_the_answer (host := plain_host) willing "project = P"
                   (VObj [("issues", VArr three_issues)]) empty_world _ _) three_issues _ _).
  - discriminate.
  - reflexivity.
  - reflexivity.
  - repeat constructor.
Defined.

Lemma search_malformed_record_witness :
  run ragged (search (host := plain_host) "project = P") empty_world
  = (Fulfilled VUndefined,
     {| calls := [searchJira (VStr "project = P")];
        console := [VStr "P-1 - s"; VStr generic_message] |}).
Proof.
  refine (search_malformed_record (host := plain_host) ragged "project = P"
            (VObj [("issues", VArr [an_issue "P-1" "Resolved" "New Feature"; VNull;
                                    an_issue "P-3" "Open" "Weird"])])
            VNull [an_issue "P-1" "Resolved" "New Feature"] [an_issue "P-3" "Open" "Weird"]
            empty_world _ _ _ _ _).
  - discriminate.
  - reflexivity.
  - reflexivity.
  - repeat constructor.
  - left; reflexivity.
Defined.

(* ===================================================================== *)
(** ** The close command, further *)
(* ===================================================================== *)

Section CloseFacts.
Context {host : Host}.
Variable jira : tracker.

Lemma start_immediate (vs : list value) (first : option value) (w : world) :
  start (map Ret vs) first w = (Pool (map (fun v => Settled (Fulfilled v)) vs) first, w).
Proof.
  revert first. induction vs as [| v vs IH]; intros first; simpl; [reflexivity |].
  rewrite IH. destruct first; reflexivity.
Qed.

Lemma answers_settled (schedule : list nat) (pl : pool) (w : world) :
  Forall is_settled (chains pl) -> answers jira schedule pl w = (pl, w).
Proof.
  intros Hall. induction schedule as [| i rest IH]; simpl; [reflexivity |].
  unfold answer. destruct (nth_error (chains pl) i) as [[r | c k] |] eqn:Hnth; auto.
  apply nth_error_In in Hnth. rewrite Forall_forall in Hall.
  destruct (Hall _ Hnth).
Qed.

Lemma drain_settled (cs : list chain) (first : option value) (w : world) :
  Forall is_settled cs -> drain jira cs first w = (Pool cs first, w).
Proof.
  induction 1 as [| c cs Hc _ IH]; simpl; [reflexivity |].
  destruct c as [r | c k]; [| destruct Hc]. now rewrite IH.
Qed.

(** Chains that end before their first request: the join is fulfilled with
    their values at once, whatever the schedule. *)
Lemma Promise_all_immediate (schedule : list nat) (vs : list value) (w : world) :
  Promise_all jira schedule (map Ret vs) w = (Fulfilled (VArr vs), w).
Proof.
  unfold Promise_all. rewrite start_immediate.
  assert (Hall : Forall is_settled (map (fun v => Settled (Fulfilled v)) vs)).
  { apply Forall_forall. intros c Hc. apply in_map_iff in Hc. destruct Hc as (v & <- & _).
    exact I. }
  rewrite answers_settled by exact Hall. simpl chains. simpl first_rejection.
  rewrite drain_settled by exact Hall. simpl.
  rewrite map_map. simpl. now rewrite map_id.
Qed.

(** X7. An empty version asks the tracker nothing: the close command ends at
    once without a line, and the release notes are [null], with the world
    left as it was, whatever the tracker and the schedule. *)
Theorem empty_version_asks_nothing (schedule : list nat) (w : world) :
  closeIssues jira "" schedule w = (Fulfilled VUndefined, w)
  /\ run jira (generateReleaseNotes "") w = (Fulfilled VNull, w).
Proof.
  split; [| reflexivity].
  pose proof (Promise_all_immediate schedule [] w) as Hjoin. simpl map in Hjoin.
  unfold closeIssues.
  change (run jira (getIssuesByFixVersion "") w) with (Fulfilled (VArr []), w).
  cbv iota. simpl map. rewrite Hjoin. reflexivity.
Qed.

(** X8. A rejected query is fatal to the close command: [search] absorbs the
    rejection, writes its message and returns [undefined], and the command is
    then rejected with the [TypeError] of [issues.map], for every schedule
    and without a further request. *)
Theorem closeIssues_rejected_query (version : string) (e : value) (schedule : list nat)
    (w : world) :
  version <> "" ->
  jira (calls w ++ [searchJira (VStr ("fixVersion=" +++ version))])
       (searchJira (VStr ("fixVersion=" +++ version))) = Rejected e ->
  closeIssues jira version schedule w
  = (Rejected TypeError,
     snd (run jira (handleError e)
            (sent (searchJira (VStr ("fixVersion=" +++ version))) w))).
Proof.
  intros Hv Hans. unfold closeIssues, getIssuesByFixVersion.
  rewrite falsy_query. apply String.eqb_neq in Hv. rewrite Hv.
  rewrite (search_failed jira _ e) by (auto; discriminate). reflexivity.
Qed.

Lemma closeIssue_unresolved (issue : value) :
  recorded issue -> status_of issue <> VStr "Resolved" ->
  closeIssue issue = Ret (unresolved_line issue).
Proof.
  intros Hrec Hr. unfold unresolved_line.
  destruct (strict_eq_string (status_of issue) "Closed") eqn:Hc.
  - apply strict_eq_string_true in Hc. now apply closeIssue_closed.
  - apply strict_eq_string_false in Hc. now apply closeIssue_other_status.
Qed.

Lemma recorded_printable (issue : value) : recorded issue -> printable issue.
Proof.
  intros (H1 & _ & H3 & _). split.
  - destruct issue; simpl in *; congruence.
  - destruct (prop issue "fields"); simpl in *; congruence.
Qed.

(** X9. A version with no resolved issue is left alone: when every matched
    issue has a status other than "Resolved", the close command sends the
    query and nothing else, and writes one line per issue,
    "{key} - Issue already Closed" for a closed one and
    "{key} - Issue not Resolved yet, can't be closed" for the others, in the
    order of the query and for every schedule.  Closing a version twice thus
    changes nothing the second time. *)
Theorem closeIssues_nothing_to_close (version : string) (results : value)
    (items : list value) (schedule : list nat) (w : world) :
  version <> "" ->
  jira (calls w ++ [searchJira (VStr ("fixVersion=" +++ version))])
       (searchJira (VStr ("fixVersion=" +++ version))) = Fulfilled results ->
  prop results "issues" = VArr items ->
  Forall (fun issue => recorded issue /\ status_of issue <> VStr "Resolved") items ->
  closeIssues jira version schedule w
  = (Fulfilled VUndefined,
     {| calls := calls w ++ [searchJira (VStr ("fixVersion=" +++ version))];
        console := console w ++ map found_line items ++ map unresolved_line items |}).
Proof.
  intros Hv Hans Hissues Hall. unfold closeIssues, getIssuesByFixVersion.
  rewrite falsy_query. pose proof Hv as Hv'. apply String.eqb_neq in Hv'. rewrite Hv'.
  assert (Hp : Forall printable items).
  { eapply Forall_impl; [| exact Hall]. intros i [Hi _]. now apply recorded_printable. }
  rewrite (search_found jira _ results items w); [| discriminate | assumption ..].
  assert (Hmap : map closeIssue items = map Ret (map unresolved_line items)).
  { rewrite map_map. apply map_ext_in. intros i Hi. rewrite Forall_forall in Hall.
    destruct (Hall i Hi). now apply closeIssue_unresolved. }
  rewrite Hmap, Promise_all_immediate. simpl forEach.
  rewrite run_each_console_log. simpl. now rewrite <- app_assoc.
Qed.

(** The search for the close transition sends nothing: it ends at once. *)
Lemma lookup_ends_at_once (transitions : value) :
  (exists t, (if truthy transitions
              then find_array (prop transitions "transitions")
                     (fun t => name <- get t "name";;
                               Ret (strict_eq_string name "Close Issue"))
              else Ret transitions) = Ret t)
  \/ (exists e, (if truthy transitions
                 then find_array (prop transitions "transitions")
                        (fun t => name <- get t "name";;
                                  Ret (strict_eq_string name "Close Issue"))
                 else Ret transitions) = Throw e).
Proof.
  destruct (truthy transitions); [| eauto].
  unfold find_array. destruct (prop transitions "transitions"); eauto.
  apply find_first_ends_at_once.
Qed.

(** X10. The requests of [closeIssue] follow one pattern, whatever the issue
    and the answers: nothing; or the transitions of the issue's own key; or
    those followed by one transition applied to the same key, with a truthy
    identifier.  A transition is never applied without the lookup, never
    twice, and never to another issue; and [closeIssue] writes nothing. *)
Theorem closeIssue_request_pattern (issue : value) (w : world) :
  console (snd (run jira (closeIssue issue) w)) = console w
  /\ (calls (snd (run jira (closeIssue issue) w)) = calls w
      \/ calls (snd (run jira (closeIssue issue) w))
         = calls w ++ [listTransitions (prop issue "key")]
      \/ exists id,
           truthy id = true
           /\ calls (snd (run jira (closeIssue issue) w))
              = calls w ++ [listTransitions (prop issue "key");
                            transitionIssue (prop issue "key") (VObj [("transition", id)])]).
Proof.
  split; [apply run_quiet, closeIssue_quiet |].
  unfold closeIssue.
  destruct (falsy issue || _ || _ || _); [now left |].
  destruct (strict_eq_string _ "Closed"); [now left |].
  destruct (negb _); [now left |].
  assert (Hrest : forall transitions w0,
    let R := run jira
      (closeTransition <-
         (if truthy transitions
          then find_array (prop transitions "transitions")
                 (fun t => name <- get t "name";; Ret (strict_eq_string name "Close Issue"))
          else Ret transitions);;
       (if truthy (closeTransition &&& prop closeTransition "id") then
          await (transitionIssue (prop issue "key")
                   (VObj [("transition", prop closeTransition "id")]));;
          Ret (VStr (ToString (prop issue "key") +++ " - " +++ chalk [green] "Closed"))
        else
          Ret (VStr (ToString (prop issue "key") +++ " - "
                     +++ chalk [red] "Close Transition not available, reason unknown...")))) w0 in
    calls (snd R) = calls w0
    \/ exists id, truthy id = true
         /\ calls (snd R)
            = calls w0 ++ [transitionIssue (prop issue "key") (VObj [("transition", id)])]).
  { intros transitions w0.
    destruct (lookup_ends_at_once transitions) as [[t ->] | [e ->]]; cbn [bind]; [| now left].
    destruct (truthy (t &&& prop t "id")) eqn:Hid; [| now left].
    right. exists (prop t "id"). split.
    - unfold js_and in Hid. destruct (truthy t) eqn:Ht; [exact Hid | congruence].
    - rewrite run_await. destruct (jira _ _); reflexivity. }
  unfold getTransitions. destruct (falsy (prop issue "key")).
  - cbn [bind]. destruct (Hrest VNull w) as [H | (id & Hid & H)].
    + left. exact H.
    + exfalso. simpl in H. apply (f_equal (@length call)) in H.
      rewrite length_app in H. simpl in H. lia.
  - rewrite run_await. destruct (jira _ _) as [transitions | e].
    + destruct (Hrest transitions (sent (listTransitions (prop issue "key")) w))
        as [H | (id & Hid & H)].
      * right; left. exact H.
      * right; right. exists id. split; [exact Hid |].
        rewrite H. simpl. now rewrite <- app_assoc.
    + right; left. reflexivity.
Qed.

(** X11. Answers [closeIssue] cannot use.  For a resolved issue, an answer to
    the transition lookup that is [null] (or any falsy value) gives the
    "Close Transition not available" line, as if no transition was there; an
    answer that is an object without an array under [transitions] makes the
    handler throw a [TypeError].  Either way the lookup is the only request. *)
Theorem closeIssue_unusable_answer (issue resp : value) (w : world) :
  recorded issue -> status_of issue = VStr "Resolved" ->
  jira (calls w ++ [listTransitions (prop issue "key")]) (listTransitions (prop issue "key"))
  = Fulfilled resp ->
  (truthy resp = false ->
   run jira (closeIssue issue) w
   = (Fulfilled (VStr (ToString (prop issue "key") +++ " - "
                       +++ chalk [red] "Close Transition not available, reason unknown...")),
      sent (listTransitions (prop issue "key")) w))
  /\ (truthy resp = true -> (forall ts, prop resp "transitions" <> VArr ts) ->
      run jira (closeIssue issue) w
      = (Rejected TypeError, sent (listTransitions (prop issue "key")) w)).
Proof.
  intros Hrec Hst Hans. split.
  - intros Hfalsy. unfold closeIssue.
    rewrite (closeIssue_guard _ Hrec). fold (status_of issue). rewrite Hst. simpl negb.
    cbv iota. unfold getTransitions. rewrite (recorded_key_truthy _ Hrec).
    simpl. rewrite Hans. simpl. rewrite Hfalsy. simpl. unfold js_and.
    rewrite !Hfalsy. reflexivity.
  - intros Htruthy Hnot. unfold closeIssue.
    rewrite (closeIssue_guard _ Hrec). fold (status_of issue). rewrite Hst. simpl negb.
    cbv iota. unfold getTransitions. rewrite (recorded_key_truthy _ Hrec).
    simpl. rewrite Hans. simpl. rewrite Htruthy. unfold find_array.
    destruct (prop resp "transitions") eqn:Hts; try reflexivity.
    exfalso. eapply Hnot. reflexivity.
Qed.

End CloseFacts.

Lemma closeIssues_rejected_query_witness :
  closeIssues (host := plain_host) down "1.0" [0; 1] empty_world
  = (Rejected TypeError,
     {| calls := [searchJira (VStr "fixVersion=1.0")];
        console := [VStr (generic_message +++ tab +++ "Service Unavailable" +++ nl)] |}).
Proof.
  refine (closeIssues_rejected_query (host := plain_host) down "1.0" unreachable [0; 1]
            empty_world _ _).
  - discriminate.
  - reflexivity.
Defined.

Lemma closeIssues_nothing_to_close_witness :
  closeIssues (host := plain_host) settled_version "1.0" [1; 0] empty_world
  = (Fulfilled VUndefined,
     {| calls := [searchJira (VStr "fixVersion=1.0")];
        console := [VStr "P-2 - s"; VStr "P-3 - s";
                    VStr "P-2 - Issue already Closed";
                    VStr "P-3 - Issue not Resolved yet, can't be closed"] |}).
Proof.
  refine (closeIssues_nothing_to_close (host := plain_host) settled_version "1.0"
            (VObj [("issues", VArr [an_issue "P-2" "Closed" "Bug"; an_issue "P-3" "Open" "Weird"])])
            [an_issue "P-2" "Closed" "Bug"; an_issue "P-3" "Open" "Weird"] [1; 0]
            empty_world _ _ _ _).
  - discriminate.
  - reflexivity.
  - reflexivity.
  - repeat constructor; discriminate.
Defined.

Lemma closeIssue_unusable_answer_witness :
  run no_transitions (closeIssue (host := plain_host) (an_issue "P-1" "Resolved" "Bug"))
      empty_world
  = (Fulfilled (VStr "P-1 - Close Transition not available, reason unknown..."),
     {| calls := [listTransitions (VStr "P-1")]; console := [] |}).
Proof.
  refine (proj1 (closeIssue_unusable_answer (host := plain_host) no_transitions
                   (an_issue "P-1" "Resolved" "Bug") VNull empty_world _ _ _) _).
  - repeat split; reflexivity.
  - reflexivity.
  - reflexivity.
  - reflexivity.
Defined.

(* ===================================================================== *)
(** ** Issue detail and comments *)
(* ===================================================================== *)

Section DetailFacts.
Context {host : Host}.
Variable jira : tracker.






(** X13. The issue command on a fetched record it cannot read: when the
    tracker answers the fetch with [null] or with a record without fields,
    the handler is rejected with a [TypeError] right after the fetch and
    writes nothing; only a rejected fetch is caught. *)
Theorem printIssue_unreadable_record (issueNumber : string) (issue : value) (w : world) :
  jira (calls w ++ [findIssue (VStr issueNumber)]) (findIssue (VStr issueNumber))
  = Fulfilled issue ->
  nullish issue = true \/ nullish (prop issue "fields") = true ->
  run jira (printIssue issueNumber) w
  = (Rejected TypeError, sent (findIssue (VStr issueNumber)) w).
Proof.
  intros Hans Hbad. unfold printIssue. rewrite run_bind, run_try_catch, run_await, Hans.
  cbn [run bind]. cbv zeta.
  destruct (nullish issue) eqn:Hissue.
  - unfold get at 1. rewrite Hissue. reflexivity.
  - destruct Hbad as [Hbad | Hbad]; [discriminate |].
    rewrite run_get by assumption. rewrite run_get by assumption.
    unfold get at 1. rewrite Hbad. reflexivity.
Qed.



Lemma run_getComments (issueNumber : string) (issue : value) (w : world) :
  jira (calls w ++ [findIssue (VStr issueNumber)]) (findIssue (VStr issueNumber))
  = Fulfilled issue ->
  nullish issue = false -> nullish (prop issue "fields") = false ->
  run jira (getComments issueNumber) w
  = run jira (comment <- get (prop issue "fields") "comment";; get comment "comments")
      {| calls := calls w ++ [findIssue (VStr issueNumber)];
         console := console w ++ [title_line issue] |}.
Proof.
  intros Hans Hissue Hfields. unfold getComments.
  rewrite run_bind, run_try_catch, run_await, Hans.
  cbn [run].
  rewrite run_get by assumption. rewrite run_get by assumption.
  rewrite run_get by assumption. rewrite run_console_log.
  reflexivity.
Qed.


(** X15. The comment command on an issue without a comment field: unlike the
    issue command, which guards the field, [getComments] reads
    [issue.fields.comment.comments] as it is, so the handler writes the title
    and is then rejected with a [TypeError]. *)
Theorem printComments_without_comment_field (issueNumber : string) (issue : value)
    (w : world) :
  jira (calls w ++ [findIssue (VStr issueNumber)]) (findIssue (VStr issueNumber))
  = Fulfilled issue ->
  nullish issue = false -> nullish (prop issue "fields") = false ->
  nullish (path issue ["fields"; "comment"]) = true ->
  run jira (printComments issueNumber) w
  = (Rejected TypeError,
     {| calls := calls w ++ [findIssue (VStr issueNumber)];
        console := console w ++ [title_line issue] |}).
Proof.
  intros Hans Hissue Hfields Hcomment. unfold path in *; simpl fold_left in *.
  unfold printComments. rewrite run_bind, (run_getComments _ issue) by assumption.
  rewrite run_get by assumption. unfold get. rewrite Hcomment. reflexivity.
Qed.

End DetailFacts.


(** The ten lines of the issue of the examples. *)
Example printIssue_on_desk :
  console (snd (run desk (printIssue (host := plain_host) "P-5") empty_world))
  = [VStr (nl +++ "P-5 - Crash on save" +++ nl);
     VStr "Type: Bug";
     VStr "Assignee: Ann - ann@example.org";
     VStr "Status: Resolved";
     VStr "Created: ";
     VStr "Fix Version: 1.0, 1.1";
     VStr "Project Number: ";
     VStr "Labels: ui,urgent";
     VStr (nl +++ "Description:" +++ nl +++ "null");
     VStr (nl +++ "2 Comments" +++ nl)].
Proof. reflexivity. Qed.

Lemma printIssue_unreadable_record_witness :
  run blank_desk (printIssue (host := plain_host) "P-7") empty_world
  = (Rejected TypeError, {| calls := [findIssue (VStr "P-7")]; console := [] |}).
Proof.
  refine (printIssue_unreadable_record (host := plain_host) blank_desk "P-7"
            (VObj [("key", VStr "P-7")]) empty_world _ _).
  - reflexivity.
  - right; reflexivity.
Defined.


Lemma printComments_without_comment_field_witness :
  run bare_desk (printComments (host := plain_host) "P-6") empty_world
  = (Rejected TypeError,
     {| calls := [findIssue (VStr "P-6")];
        console := [VStr ("P-6 - s" +++ nl +++ nl)] |}).
Proof.
  refine (printComments_without_comment_field (host := plain_host) bare_desk "P-6"
            bare_issue empty_world _ _ _ _); reflexivity.
Defined.

(* ===================================================================== *)
(** ** Set-Version, further *)
(* ===================================================================== *)

Section SetVersionFacts.
Context {host : Host}.
Variable jira : tracker.

(** X16. Which issues [setVersion] updates.  An issue with a status name and
    an array of fix versions is passed to the update exactly when the name is
    not "Closed" and the array is empty; an issue that has its fields but
    neither a status nor fix versions is passed too; and so is a [null] entry
    of the sprint, on which the update then fails. *)
Theorem eligible_iff_open_and_unversioned (issue : value) :
  (forall name fs,
      status_of issue = VStr name -> path issue ["fields"; "fixVersions"] = VArr fs ->
      (eligible issue = true <-> name <> "Closed" /\ fs = []))
  /\ (truthy (path issue ["fields"; "status"]) = false ->
      truthy (path issue ["fields"; "fixVersions"]) = false ->
      eligible issue = true)
  /\ (nullish issue = true -> eligible issue = true).
Proof.
  split; [| split].
  - intros name fs Hname Hfix. unfold status_of, path in *; simpl fold_left in *.
    pose proof (prop_of_object (prop issue "fields") "fixVersions") as H2.
    rewrite Hfix in H2. destruct H2 as [ps2 H2].
    pose proof (prop_of_object issue "fields") as H3.
    rewrite H2 in H3. destruct H3 as [ps3 H3].
    pose proof (prop_of_object (prop (prop issue "fields") "status") "name") as H1.
    rewrite Hname in H1. destruct H1 as [ps1 H1].
    unfold eligible, isIssueClosed, doesIssueHaveFixVersion, js_and, falsy, path;
      simpl fold_left.
    rewrite H3 in *. cbn [truthy]. cbv iota. rewrite H2 in *. cbn [truthy]. cbv iota.
    rewrite H1 in *. cbn [truthy]. cbv iota. rewrite Hname, Hfix.
    cbn [truthy loose_eq_string negb].
    change (prop (VArr fs) "length") with (VNum (Z.of_nat (length fs))).
    unfold gt_zero. cbn [ToNumber].
    rewrite andb_true_iff, !negb_true_iff, String.eqb_neq.
    destruct fs as [| f fs]; simpl; split; intros [Ha Hb]; split; auto; discriminate.
  - intros Hstatus Hfix. unfold path in *; simpl fold_left in *.
    unfold eligible, isIssueClosed, doesIssueHaveFixVersion, js_and, falsy, path;
      simpl fold_left.
    destruct (truthy issue) eqn:Hi; cbv iota; [| now rewrite !Hi].
    destruct (truthy (prop issue "fields")) eqn:Hf; cbv iota; [| now rewrite !Hf].
    now rewrite !Hstatus, !Hfix.
  - intros Hnull. destruct issue; try discriminate; reflexivity.
Qed.

Lemma run_updateIssues_accepted (versionObj : value) (pre post : list value) (count : Z)
    (w : world) :
  Forall (fun i => nullish i = false) post ->
  (forall history i, In i post -> eligible i = true ->
     exists v, jira history (update_of versionObj i) = Fulfilled v) ->
  run jira (updateIssues (VArr (pre ++ post)) (VArr [versionObj])
              (length pre) (length post) count) w
  = (Fulfilled (count + Z.of_nat (length (filter eligible post)))%Z,
     {| calls := calls w ++ map (update_of versionObj) (filter eligible post);
        console := console w ++ map report post |}).
Proof.
  intros Hall. revert pre count w.
  induction Hall as [| issue post Hissue _ IH]; intros pre count w Hacc.
  - simpl. rewrite !app_nil_r, Z.add_0_r. now destruct w.
  - cbn [length updateIssues]. rewrite index_middle. fold (eligible issue).
    rewrite snoc_cons, <- (length_snoc pre issue).
    cbn [filter map].
    assert (Hreport : report issue
                      = if eligible issue
                        then VStr (chalk [green] (tab +++ ToString (prop issue "key")))
                        else VStr (chalk [yellow]
                                     (tab +++ ToString (prop issue "key")
                                      +++ " already has a version or is closed")))
      by reflexivity.
    assert (Hacc' : forall history i, In i post -> eligible i = true ->
                      exists v, jira history (update_of versionObj i) = Fulfilled v)
      by (intros history i Hin; apply Hacc; now right).
    destruct (eligible issue) eqn:Hel.
    + rewrite run_get by assumption. rewrite run_await.
      fold (update_of versionObj issue).
      destruct (Hacc (calls w ++ [update_of versionObj issue]) issue (or_introl eq_refl) Hel)
        as [v ->].
      rewrite run_get by assumption. rewrite run_console_log.
      rewrite IH by assumption. rewrite Hreport.
      unfold logged, sent. cbn [calls console length map].
      rewrite <- !app_assoc. cbn [app]. rewrite Nat2Z.inj_succ.
      f_equal. f_equal. lia.
    + rewrite run_get by assumption. rewrite run_console_log.
      rewrite IH by assumption. rewrite Hreport.
      unfold logged. cbn [calls console]. now rewrite <- !app_assoc.
Qed.

Lemma run_updateIssues_rejected (versionObj bad e : value) (pre0 pre post : list value)
    (count : Z) (w : world) :
  Forall (fun i => nullish i = false) pre ->
  (forall history i, In i pre -> eligible i = true ->
     exists v, jira history (update_of versionObj i) = Fulfilled v) ->
  nullish bad = false -> eligible bad = true ->
  (forall history, jira history (update_of versionObj bad) = Rejected e) ->
  run jira (updateIssues (VArr (pre0 ++ pre ++ bad :: post)) (VArr [versionObj])
              (length pre0) (length (pre ++ bad :: post)) count) w
  = (Rejected e,
     {| calls := calls w ++ map (update_of versionObj) (filter eligible pre)
                   ++ [update_of versionObj bad];
        console := console w ++ map report pre |}).
Proof.
  intros Hall. revert pre0 count w.
  induction Hall as [| issue pre Hissue _ IH]; intros pre0 count w Hacc Hbad Hel Hrej.
  - cbn [app length updateIssues]. rewrite index_middle. fold (eligible bad). rewrite Hel.
    cbn [falsy negb andb]. rewrite run_get by assumption. rewrite run_await.
    fold (update_of versionObj bad). rewrite Hrej.
    unfold sent. cbn [filter map app]. now rewrite app_nil_r.
  - cbn [app length updateIssues]. rewrite index_middle. fold (eligible issue).
    rewrite (snoc_cons pre0), <- (length_snoc pre0 issue).
    cbn [filter map].
    assert (Hreport : report issue
                      = if eligible issue
                        then VStr (chalk [green] (tab +++ ToString (prop issue "key")))
                        else VStr (chalk [yellow]
                                     (tab +++ ToString (prop issue "key")
                                      +++ " already has a version or is closed")))
      by reflexivity.
    assert (Hacc' : forall history i, In i pre -> eligible i = true ->
                      exists v, jira history (update_of versionObj i) = Fulfilled v)
      by (intros history i Hin; apply Hacc; now right).
    destruct (eligible issue) eqn:Hel'.
    + rewrite run_get by assumption. rewrite run_await.
      fold (update_of versionObj issue).
      destruct (Hacc (calls w ++ [update_of versionObj issue]) issue (or_introl eq_refl) Hel')
        as [v ->].
      rewrite run_get by assumption. rewrite run_console_log.
      rewrite IH by assumption. rewrite Hreport.
      unfold logged, sent. cbn [calls console map].
      rewrite <- !app_assoc. reflexivity.
    + rewrite run_get by assumption. rewrite run_console_log.
      rewrite IH by assumption. rewrite Hreport.
      unfold logged. cbn [calls console]. now rewrite <- !app_assoc.
Qed.

(** [setVersion] with its lookups answered is its issue loop followed by the
    tally, also when the board answers without issues. *)
Lemma run_setVersion_content (version : string) (sprintId sprints answer versionObj : value)
    (sps items vs : list value) (w : world) :
  jira (calls w ++ [sprint_lookup]) sprint_lookup = Fulfilled sprints ->
  prop sprints "values" = VArr sps ->
  let activeSprint := nth 0 sps VUndefined in
  truthy activeSprint && truthy (prop activeSprint "id") = true ->
  jira (calls w ++ [sprint_lookup; board_lookup activeSprint])
       (board_lookup activeSprint) = Fulfilled answer ->
  sprint_content answer items ->
  jira (calls w ++ [sprint_lookup; board_lookup activeSprint; version_lookup])
       version_lookup = Fulfilled (VArr vs) ->
  find (named version) vs = Some versionObj ->
  run jira (setVersion version sprintId) w
  = match run jira (updateIssues (VArr items) (VArr [versionObj]) 0 (length items) 0)
            {| calls := calls w ++ [sprint_lookup; board_lookup activeSprint; version_lookup];
               console := console w ++ [header_line version] |}
    with
    | (Fulfilled n, w') =>
        (Fulfilled VUndefined,
         logged (VStr (chalk [bold; underline; green]
                         (nl +++ "Updated " +++ NumberToString n +++ " issues out of "
                          +++ NumberToString (Z.of_nat (length items))
                          +++ " total issues." +++ nl))) w')
    | (Rejected e, w') => (Rejected e, w')
    end.
Proof.
  intros Hans Hvalues activeSprint Hsome Hboard Hcontent Hversions Hfind.
  destruct Hcontent as [Hitems | (Hanswer & Hnone & ->)].
  { now apply (run_setVersion_loop jira version sprintId sprints answer versionObj sps items vs). }
  unfold setVersion. cbv zeta. fold sprint_lookup. fold (header_line version).
  rewrite (run_setVersion_start _ _ _ _ _ _ Hans Hvalues). fold activeSprint.
  apply andb_true_iff in Hsome. destruct Hsome as [Hs Hid].
  replace (falsy activeSprint || falsy (prop activeSprint "id")) with false
    by (unfold falsy; now rewrite Hs, Hid).
  fold (board_lookup activeSprint). rewrite run_await. simpl calls.
  rewrite <- app_assoc. simpl app. rewrite Hboard.
  fold version_lookup. rewrite run_await. simpl calls.
  rewrite <- !app_assoc. simpl app. rewrite Hversions.
  change (VArr vs ||| VArr []) with (VArr vs). rewrite iterations_length.
  change (findVersion (VArr vs) version 0 (length vs))
    with (findVersion (VArr ([] ++ vs)) version (length (@nil value)) (length vs)).
  rewrite findVersion_first, Hfind.
  assert (Hv : truthy versionObj = true).
  { apply find_some in Hfind. eapply named_truthy. apply Hfind. }
  replace (falsy versionObj) with false by (unfold falsy; now rewrite Hv).
  rewrite run_get by assumption. unfold js_or. rewrite Hnone.
  rewrite iterations_length. cbn [length updateIssues bind run].
  rewrite run_console_log. cbn [run]. unfold sent, logged. cbn [calls console].
  now rewrite <- !app_assoc.
Qed.

(** X17. [setVersion] comes to its end when nothing stands in its way: with
    the three lookups answered, no [null] among the issues of the sprint and
    every update accepted, the handler is fulfilled; it has sent one update
    for every issue that is neither closed nor versioned, in the order of the
    sprint, written one line per issue in that order, and closed with the
    tally of the updates sent and the issues fetched.  A board that answers
    without issues gives "Updated 0 issues out of 0 total issues." *)
Theorem setVersion_completes (version : string) (sprintId sprints answer versionObj : value)
    (sps items vs : list value) (w : world) :
  jira (calls w ++ [sprint_lookup]) sprint_lookup = Fulfilled sprints ->
  prop sprints "values" = VArr sps ->
  let activeSprint := nth 0 sps VUndefined in
  truthy activeSprint && truthy (prop activeSprint "id") = true ->
  jira (calls w ++ [sprint_lookup; board_lookup activeSprint])
       (board_lookup activeSprint) = Fulfilled answer ->
  sprint_content answer items ->
  jira (calls w ++ [sprint_lookup; board_lookup activeSprint; version_lookup])
       version_lookup = Fulfilled (VArr vs) ->
  find (named version) vs = Some versionObj ->
  Forall (fun i => nullish i = false) items ->
  (forall history i, In i items -> eligible i = true ->
     exists v, jira history (update_of versionObj i) = Fulfilled v) ->
  run jira (setVersion version sprintId) w
  = (Fulfilled VUndefined,
     {| calls := calls w ++ [sprint_lookup; board_lookup activeSprint; version_lookup]
                   ++ map (update_of versionObj) (filter eligible items);
        console := console w ++ [header_line version] ++ map report items
                     ++ [tally_line (length (filter eligible items)) (length items)] |}).
Proof.
  intros Hans Hvalues activeSprint Hsome Hboard Hcontent Hversions Hfind Hall Hacc.
  rewrite (run_setVersion_content version sprintId sprints answer versionObj sps items vs w)
    by assumption.
  fold activeSprint.
  change (updateIssues (VArr items) (VArr [versionObj]) 0 (length items) 0)
    with (updateIssues (VArr ([] ++ items)) (VArr [versionObj])
            (length (@nil value)) (length items) 0).
  rewrite run_updateIssues_accepted by assumption.
  unfold logged, tally_line. cbn [calls console]. rewrite Z.add_0_l.
  now rewrite <- !app_assoc.
Qed.

(** X18. A rejected update stops [setVersion] where it stands: the handler
    is rejected with the tracker's error; the updates of the issues before
    it were sent and stay sent, the rejected one is the last request; the
    issue it was for and the issues after it get no line, and no tally is
    written. *)
Theorem setVersion_stops_at_rejected_update (version : string)
    (sprintId sprints answer versionObj bad e : value) (sps pre post vs : list value)
    (w : world) :
  jira (calls w ++ [sprint_lookup]) sprint_lookup = Fulfilled sprints ->
  prop sprints "values" = VArr sps ->
  let activeSprint := nth 0 sps VUndefined in
  truthy activeSprint && truthy (prop activeSprint "id") = true ->
  jira (calls w ++ [sprint_lookup; board_lookup activeSprint])
       (board_lookup activeSprint) = Fulfilled answer ->
  prop answer "issues" = VArr (pre ++ bad :: post) ->
  jira (calls w ++ [sprint_lookup; board_lookup activeSprint; version_lookup])
       version_lookup = Fulfilled (VArr vs) ->
  find (named version) vs = Some versionObj ->
  Forall (fun i => nullish i = false) pre ->
  (forall history i, In i pre -> eligible i = true ->
     exists v, jira history (update_of versionObj i) = Fulfilled v) ->
  nullish bad = false -> eligible bad = true ->
  (forall history, jira history (update_of versionObj bad) = Rejected e) ->
  run jira (setVersion version sprintId) w
  = (Rejected e,
     {| calls := calls w ++ [sprint_lookup; board_lookup activeSprint; version_lookup]
                   ++ map (update_of versionObj) (filter eligible pre)
                   ++ [update_of versionObj bad];
        console := console w ++ [header_line version] ++ map report pre |}).
Proof.
  intros Hans Hvalues activeSprint Hsome Hboard Hitems Hversions Hfind Hall Hacc
         Hbad Hel Hrej.
  rewrite (run_setVersion_loop jira version sprintId sprints answer versionObj sps
             (pre ++ bad :: post) vs w) by assumption.
  fold activeSprint.
  change (updateIssues (VArr (pre ++ bad :: post)) (VArr [versionObj]) 0
            (length (pre ++ bad :: post)) 0)
    with (updateIssues (VArr ([] ++ pre ++ bad :: post)) (VArr [versionObj])
            (length (@nil value)) (length (pre ++ bad :: post)) 0).
  rewrite (run_updateIssues_rejected versionObj bad e) by assumption.
  cbn [calls console]. now rewrite <- !app_assoc.
Qed.

(** X19. A sprint lookup answered out of shape is not reported as a missing
    sprint: when the answer is [null] or holds nothing under [values],
    reading [sprints.values[0]] throws and the handler is rejected with a
    [TypeError], after the header and that one request. *)
Theorem setVersion_unreadable_sprints (version : string) (sprintId sprints : value)
    (w : world) :
  jira (calls w ++ [sprint_lookup]) sprint_lookup = Fulfilled sprints ->
  nullish sprints = true \/ nullish (prop sprints "values") = true ->
  run jira (setVersion version sprintId) w
  = (Rejected TypeError,
     {| calls := calls w ++ [sprint_lookup]; console := console w ++ [header_line version] |}).
Proof.
  intros Hans Hbad. unfold setVersion. cbv zeta. fold sprint_lookup.
  fold (header_line version). rewrite run_console_log, run_await. simpl calls. rewrite Hans.
  destruct (nullish sprints) eqn:Hs.
  - unfold get at 1. rewrite Hs. reflexivity.
  - destruct Hbad as [Hbad | Hbad]; [discriminate |].
    rewrite run_get by assumption. unfold get_index at 1. rewrite Hbad. reflexivity.
Qed.

End SetVersionFacts.

Lemma setVersion_completes_witness :
  run board (setVersion (host := plain_host) "1.0" VUndefined) empty_world
  = (Fulfilled VUndefined,
     {| calls := [sprint_lookup; board_lookup active_sprint; version_lookup;
                  update_of version_1_0 (sprint_issue "101" "CV-1" "Open" []);
                  update_of version_1_0 (sprint_issue "104" "CV-4" "Resolved" [])];
        console := [header_line (host := plain_host) "1.0";
                    VStr (tab +++ "CV-1");
                    VStr (tab +++ "CV-2 already has a version or is closed");
                    VStr (tab +++ "CV-3 already has a version or is closed");
                    VStr (tab +++ "CV-4");
                    tally_line (host := plain_host) 2 4] |}).
Proof.
  refine (setVersion_completes (host := plain_host) board "1.0" VUndefined
            (VObj [("values", VArr [active_sprint])])
            (VObj [("issues", VArr sprint_issues)]) version_1_0
            [active_sprint] sprint_issues
            [VObj [("id", VStr "6"); ("name", VStr "0.9")]; version_1_0] empty_world
            _ _ _ _ _ _ _ _ _).
  - reflexivity.
  - reflexivity.
  - reflexivity.
  - reflexivity.
  - left; reflexivity.
  - reflexivity.
  - reflexivity.
  - repeat constructor.
  - intros history i _ _. exists VUndefined. reflexivity.
Defined.

Lemma setVersion_stops_at_rejected_update_witness :
  run strict_board (setVersion (host := plain_host) "1.0" VUndefined) empty_world
  = (Rejected unreachable,
     {| calls := [sprint_lookup; board_lookup active_sprint; version_lookup;
                  update_of version_1_0 (sprint_issue "101" "CV-1" "Open" []);
                  update_of version_1_0 (sprint_issue "104" "CV-4" "Resolved" [])];
        console := [header_line (host := plain_host) "1.0";
                    VStr (tab +++ "CV-1");
                    VStr (tab +++ "CV-2 already has a version or is closed");
                    VStr (tab +++ "CV-3 already has a version or is closed")] |}).
Proof.
  refine (setVersion_stops_at_rejected_update (host := plain_host) strict_board "1.0"
            VUndefined (VObj [("values", VArr [active_sprint])])
            (VObj [("issues", VArr sprint_issues)]) version_1_0
            (sprint_issue "104" "CV-4" "Resolved" []) unreachable
            [active_sprint]
            [sprint_issue "101" "CV-1" "Open" []; sprint_issue "102" "CV-2" "Closed" [];
             sprint_issue "103" "CV-3" "Open" [VObj [("name", VStr "0.9")]]]
            []
            [VObj [("id", VStr "6"); ("name", VStr "0.9")]; version_1_0] empty_world
            _ _ _ _ _ _ _ _ _ _ _ _).
  - reflexivity.
  - reflexivity.
  - reflexivity.
  - reflexivity.
  - reflexivity.
  - reflexivity.
  - reflexivity.
  - repeat constructor.
  - intros history i [<- | [<- | [<- | []]]] Hel; try discriminate Hel.
    exists VUndefined. reflexivity.
  - reflexivity.
  - reflexivity.
  - intros history. reflexivity.
Defined.

Lemma setVersion_unreadable_sprints_witness :
  run shapeless_board (setVersion (host := plain_host) "1.0" VUndefined) empty_world
  = (Rejected TypeError,
     {| calls := [sprint_lookup]; console := [header_line (host := plain_host) "1.0"] |}).
Proof.
  refine (setVersion_unreadable_sprints (host := plain_host) shapeless_board "1.0" VUndefined
            (VObj []) empty_world _ _).
  - reflexivity.
  - right; reflexivity.
Defined.

(* ===================================================================== *)
(** ** The two other states of the file *)
(* ===================================================================== *)

Section EarlierFacts.
Context {host : Host}.
Variable jira : tracker.

(** Sorting the issues sends nothing and writes nothing: it ends at once,
    with the categories or with the error of a missing field. *)
Lemma categorize_all_ends_at_once (items : list value) (c : categories) :
  (exists c', categorize_all items c = Ret c')
  \/ (exists e, categorize_all items c = Throw e).
Proof.
  revert c. induction items as [| i items IH]; intros c; simpl; [eauto |].
  unfold categorize, get.
  destruct (nullish i); simpl; [eauto |].
  destruct (nullish (prop i "fields")); simpl; [eauto |].
  destruct (nullish (prop (prop i "fields") "issuetype")); simpl; [eauto |].
  repeat match goal with
         | |- context [if ?b then _ else _] => destruct b; simpl
         end; apply IH.
Qed.

(** Without a [return] after its loop, the earlier [search] ends with
    [undefined] on every path past its guard. *)
Lemma search_without_return (query : string) (w : world) :
  query <> "" ->
  exists w1,
    run jira (Rev0.search query) w = (Fulfilled VUndefined, w1)
    /\ calls w1 = calls w ++ [searchJira (VStr query)].
Proof.
  intros Hq. apply String.eqb_neq in Hq.
  assert (Hcalls : calls (snd (run jira (Rev0.search query) w))
                   = calls w ++ [searchJira (VStr query)]).
  { unfold Rev0.search. rewrite falsy_query, Hq.
    cbn [try_catch bind await run].
    rewrite run_offline; [reflexivity |].
    apply offline_try_catch; [| intros e; exact I].
    destruct (jira _ _) as [results | e]; [| exact I].
    cbn [bind]. apply offline_bind; [| intros; exact I].
    unfold forEach. destruct (if truthy (results &&& prop results "issues")
                              then prop results "issues" else VArr []); try exact I.
    apply offline_each. intros i.
    apply offline_bind; [apply offline_get |]. intros key.
    apply offline_bind; [apply offline_get |]. intros fields.
    apply offline_bind; [apply offline_get |]. intros summary. exact I. }
  revert Hcalls. unfold Rev0.search. rewrite falsy_query, Hq, run_try_catch, run_await.
  destruct (jira _ _) as [results | e].
  - rewrite run_bind.
    match goal with |- context [run jira ?body ?w0] =>
      destruct (run jira body w0) as [[[] | e] w1] end.
    + simpl. eauto.
    + simpl. intros H. eexists. split; [reflexivity | exact H].
  - simpl. intros H. eexists. split; [reflexivity | exact H].
Qed.

(** X20. In the state of the file whose [search] has no [return], the close
    command cannot close anything: for every non-empty version, whatever the
    tracker answers, [issues] is [undefined], the command is rejected with
    the [TypeError] of [issues.map], and the query is the only request
    sent. *)
Theorem earlier_closeIssues_never_closes (version : string) (schedule : list nat)
    (w : world) :
  version <> "" ->
  fst (Rev0.closeIssues jira version schedule w) = Rejected TypeError
  /\ calls (snd (Rev0.closeIssues jira version schedule w))
     = calls w ++ [searchJira (VStr ("fixVersion=" +++ version))].
Proof.
  intros Hv. unfold Rev0.closeIssues, Rev0.getIssuesByFixVersion.
  rewrite falsy_query. apply String.eqb_neq in Hv. rewrite Hv.
  destruct (search_without_return ("fixVersion=" +++ version) w) as (w1 & -> & Hcalls);
    [discriminate |].
  split; [reflexivity | exact Hcalls].
Qed.

(** X21. In that state of the file the release notes are [null] for every
    version and every tracker: the issues are the empty array for the empty
    version and [undefined] for any other. *)
Theorem earlier_generateReleaseNotes_always_null (version : string) (w : world) :
  fst (run jira (Rev0.generateReleaseNotes version) w) = Fulfilled VNull.
Proof.
  unfold Rev0.generateReleaseNotes, Rev0.getIssuesByFixVersion.
  rewrite falsy_query. destruct (version =? "") eqn:Hv; [reflexivity |].
  rewrite run_bind, run_try_catch, run_bind.
  destruct (search_without_return ("fixVersion=" +++ version) w) as (w1 & -> & _);
    [discriminate |].
  reflexivity.
Qed.

(** X22. In the first state of the file, which sends the query without a
    [try], a rejected query rejects both commands with the error of the
    tracker: nothing is written and no further request is sent. *)
Theorem first_query_failure_propagates (version : string) (e : value)
    (schedule : list nat) (w : world) :
  version <> "" ->
  jira (calls w ++ [searchJira (VStr ("fixVersion=" +++ version))])
       (searchJira (VStr ("fixVersion=" +++ version))) = Rejected e ->
  Rev1.closeIssues jira version schedule w
  = (Rejected e, sent (searchJira (VStr ("fixVersion=" +++ version))) w)
  /\ run jira (Rev1.generateReleaseNotes version) w
     = (Rejected e, sent (searchJira (VStr ("fixVersion=" +++ version))) w).
Proof.
  intros Hv Hans. apply String.eqb_neq in Hv.
  assert (Hget : run jira (Rev1.getIssuesByFixVersion version) w
                 = (Rejected e, sent (searchJira (VStr ("fixVersion=" +++ version))) w)).
  { unfold Rev1.getIssuesByFixVersion. now rewrite falsy_query, Hv, run_await, Hans. }
  split.
  - unfold Rev1.closeIssues. now rewrite Hget.
  - unfold Rev1.generateReleaseNotes. now rewrite run_bind, Hget.
Qed.

(** X23. What the later [search] and [try] leave untouched: when the query
    is answered with an array of issues, each with its fields, the release
    notes of the first state of the file and those of [index.js] settle the
    same way; the later file writes one line per issue on the way, the first
    writes none, and both send the one query. *)
Theorem generateReleaseNotes_same_notes (version : string) (results : value)
    (items : list value) (w : world) :
  version <> "" ->
  jira (calls w ++ [searchJira (VStr ("fixVersion=" +++ version))])
       (searchJira (VStr ("fixVersion=" +++ version))) = Fulfilled results ->
  prop results "issues" = VArr items ->
  Forall printable items ->
  fst (run jira (Rev1.generateReleaseNotes version) w)
  = fst (run jira (generateReleaseNotes version) w)
  /\ snd (run jira (Rev1.generateReleaseNotes version) w)
     = sent (searchJira (VStr ("fixVersion=" +++ version))) w
  /\ snd (run jira (generateReleaseNotes version) w)
     = {| calls := calls w ++ [searchJira (VStr ("fixVersion=" +++ version))];
          console := console w ++ map found_line items |}.
Proof.
  intros Hv Hans Hissues Hall. pose proof Hv as Hv'. apply String.eqb_neq in Hv'.
  assert (Hfirst : run jira (Rev1.getIssuesByFixVersion version) w
                   = (Fulfilled (VArr items),
                      sent (searchJira (VStr ("fixVersion=" +++ version))) w)).
  { unfold Rev1.getIssuesByFixVersion. rewrite falsy_query, Hv', run_await, Hans.
    unfold js_and. rewrite (has_issues_truthy _ _ Hissues), Hissues. reflexivity. }
  assert (Hlater : run jira (getIssuesByFixVersion version) w
                   = (Fulfilled (VArr items),
                      {| calls := calls w ++ [searchJira (VStr ("fixVersion=" +++ version))];
                         console := console w ++ map found_line items |})).
  { unfold getIssuesByFixVersion. rewrite falsy_query, Hv'.
    apply search_found with (results := results); [discriminate | assumption ..]. }
  unfold Rev1.generateReleaseNotes, generateReleaseNotes.
  rewrite !run_bind, run_try_catch, run_bind, Hfirst, Hlater.
  cbn [run]. change (prop (VArr items) "length") with (VNum (Z.of_nat (length items))).
  destruct (falsy (VArr items) || falsy (VNum (Z.of_nat (length items)))).
  - repeat split.
  - rewrite !run_bind.
    destruct (categorize_all_ends_at_once items (Categories [] [] [] [])) as [[c Hc] | [e Hc]];
      rewrite Hc; repeat split.
Qed.

End EarlierFacts.

Lemma earlier_closeIssues_never_closes_witness :
  fst (Rev0.closeIssues (host := plain_host) willing "1.0" [] empty_world)
  = Rejected TypeError
  /\ calls (snd (Rev0.closeIssues (host := plain_host) willing "1.0" [] empty_world))
     = [searchJira (VStr "fixVersion=1.0")].
Proof.
  refine (earlier_closeIssues_never_closes (host := plain_host) willing "1.0" []
            empty_world _).
  discriminate.
Defined.

Lemma first_query_failure_propagates_witness :
  Rev1.closeIssues (host := plain_host) down "1.0" [] empty_world
  = (Rejected unreachable,
     {| calls := [searchJira (VStr "fixVersion=1.0")]; console := [] |})
  /\ run down (Rev1.generateReleaseNotes "1.0") empty_world
     = (Rejected unreachable,
        {| calls := [searchJira (VStr "fixVersion=1.0")]; console := [] |}).
Proof.
  refine (first_query_failure_propagates (host := plain_host) down "1.0" unreachable []
            empty_world _ _).
  - discriminate.
  - reflexivity.
Defined.

Lemma generateReleaseNotes_same_notes_witness :
  fst (run four_types (Rev1.generateReleaseNotes "1.0") empty_world)
  = fst (run four_types (generateReleaseNotes (host := plain_host) "1.0") empty_world)
  /\ snd (run four_types (Rev1.generateReleaseNotes "1.0") empty_world)
     = {| calls := [searchJira (VStr "fixVersion=1.0")]; console := [] |}
  /\ snd (run four_types (generateReleaseNotes (host := plain_host) "1.0") empty_world)
     = {| calls := [searchJira (VStr "fixVersion=1.0")];
          console := [VStr "R-1 - s"; VStr "R-2 - s"; VStr "R-3 - s"; VStr "R-4 - s"] |}.
Proof.
  refine (generateReleaseNotes_same_notes (host := plain_host) four_types "1.0"
            (VObj [("issues", VArr [an_issue "R-1" "Closed" "New Feature";
                                    an_issue "R-2" "Closed" "Bug";
                                    an_issue "R-3" "Closed" "Weird";
                                    an_issue "R-4" "Closed" "Improvement"])])
            [an_issue "R-1" "Closed" "New Feature"; an_issue "R-2" "Closed" "Bug";
             an_issue "R-3" "Closed" "Weird"; an_issue "R-4" "Closed" "Improvement"]
            empty_world _ _ _ _).
  - discriminate.
  - reflexivity.
  - reflexivity.
  - repeat constructor.
Defined.
